(** * A double-entry ledger API: the handlers of [main.py] over an explicit store

    The development embeds the request handlers of [main.py] together with
    the tables of [models.py] and the request bodies of [schemas.py], and
    proves properties of single requests and of the stores that sequences of
    requests can build.

    Conventions of the embedding.
    - A monetary amount ([Decimal] in the schemas, [Numeric(19, 4)] in the
      tables) is an integer number of ten-thousandths: [10000] is 1.0000.
    - A primary key is a [uuid4] string in the code.  Only equality of keys
      is ever used, so a key is represented by the rank of its draw: the
      store counts the draws made so far and the next key is that count.
      A request may name any key, drawn or not.
    - The [created_at] columns are written by a column default and read only
      by the history listing; they are left out of the rows, and the history
      listing takes the column as a function of the primary key.
    - The module [database] (engine, [SessionLocal], [get_db], [Base]) is
      not among the sources.  What the handlers need from it is gathered in
      the record [Database] and every definition takes it as an argument. *)

From Stdlib Require Import ZArith List String Bool Arith Lia.
From Stdlib Require Import Permutation Sorted.
From Stdlib Require Import Floats.SpecFloat.
Import ListNotations.

Open Scope string_scope.
Open Scope list_scope.
Open Scope Z_scope.

(** ** models.py *)

Definition uuid := nat.

Inductive EntryType := DEBIT | CREDIT.

Definition EntryType_eqb (a b : EntryType) : bool :=
  match a, b with
  | DEBIT, DEBIT | CREDIT, CREDIT => true
  | _, _ => false
  end.

Record Account := mkAccount {
  acc_id : uuid;
  acc_user_id : string;
  acc_account_type : string;
  acc_currency : string;
  acc_status : string
}.

Record Transaction := mkTransaction {
  tx_id : uuid;
  tx_type : string;
  tx_status : string
}.

Record LedgerEntry := mkLedgerEntry {
  entry_id : uuid;
  account_id : uuid;
  transaction_id : uuid;
  entry_type : EntryType;
  amount : Z
}.

(** The mapped attributes of [models.Transaction]. *)
Definition Transaction_attributes : list string :=
  ["id"; "type"; "status"; "created_at"].

(** ** schemas.py *)

Record AccountCreate := mkAccountCreate {
  ac_user_id : string;
  ac_account_type : string;
  ac_currency : string            (* "USD" when the body omits it *)
}.

Record AccountResponse := mkAccountResponse {
  ar_id : uuid;
  ar_user_id : string;
  ar_account_type : string;
  ar_currency : string;
  ar_status : string;
  ar_balance : Z
}.

Record TransferRequest := mkTransferRequest {
  source_account_id : uuid;
  destination_account_id : uuid;
  tr_amount : Z;
  tr_description : option string
}.

Record DepositRequest := mkDepositRequest {
  dep_account_id : uuid;
  dep_amount : Z;
  dep_description : option string
}.

Record WithdrawalRequest := mkWithdrawalRequest {
  wd_account_id : uuid;
  wd_amount : Z;
  wd_description : option string
}.

(** ** The absent module [database] *)

(** [db_foreign_keys] tells what the engine does with an [INSERT] whose
    foreign key names no row: [None] when the engine does not check (the
    default of SQLite), [Some msg] when the statement fails with an
    [IntegrityError] whose text is [msg].

    [Base_rejects_unknown_keywords] tells whether the constructor that
    [Base] gives to the mapped classes refuses a keyword that is not a
    mapped attribute (SQLAlchemy's declarative constructor does, with a
    [TypeError]) or accepts it without persisting it. *)
Record Database := mkDatabase {
  db_foreign_keys : option string;
  Base_rejects_unknown_keywords : bool
}.

(** ** The store and the session *)

Record Store := mkStore {
  accounts : list Account;
  transactions : list Transaction;
  ledger_entries : list LedgerEntry;
  uuid4_drawn : nat
}.

Definition empty_store : Store := mkStore [] [] [] 0%nat.

(** A [LedgerEntry] object that was built and added but not yet flushed:
    it has no primary key yet. *)
Record PendingEntry := mkPendingEntry {
  pe_account_id : uuid;
  pe_transaction_id : uuid;
  pe_entry_type : EntryType;
  pe_amount : Z
}.

Record Session := mkSession {
  db : Store;
  pending : list PendingEntry
}.

Inductive Exception :=
| HTTPException (status_code : nat) (detail : string)
| TypeError (msg : string)
| IntegrityError (msg : string).

Inductive Result (A : Type) :=
| Return (a : A)
| Raise (e : Exception).
Arguments Return {A} a.
Arguments Raise {A} e.

(** Handlers run in a state-and-exception monad over the session. *)
Definition M (A : Type) : Type := Session -> Result A * Session.

Definition ret {A} (a : A) : M A := fun ss => (Return a, ss).

Definition raise {A} (e : Exception) : M A := fun ss => (Raise e, ss).

Definition bind {A B} (c : M A) (k : A -> M B) : M B :=
  fun ss =>
    match c ss with
    | (Return a, ss') => k a ss'
    | (Raise e, ss') => (Raise e, ss')
    end.

Notation "x <- c ;; k" := (bind c (fun x => k))
  (at level 61, c at next level, right associativity).
Notation "c ;;; k" := (bind c (fun _ => k))
  (at level 61, right associativity).

(** [db.query(...)...first()] and [db.execute(text(...))]: a read of the
    flushed rows. *)
Definition db_read {A} (q : Store -> A) : M A := fun ss => (Return (q (db ss)), ss).

(** [db.add(entry)] and [db.add_all([...])]: the objects wait for the next
    flush. *)
Definition db_add_all (es : list PendingEntry) : M unit :=
  fun ss => (Return tt, mkSession (db ss) (pending ss ++ es)).

Definition db_add (e : PendingEntry) : M unit := db_add_all [e].

Definition has_account (s : Store) (a : uuid) : bool :=
  existsb (fun acc => Nat.eqb (acc_id acc) a) (accounts s).

Definition has_transaction (s : Store) (t : uuid) : bool :=
  existsb (fun tx => Nat.eqb (tx_id tx) t) (transactions s).

(** [INSERT INTO ledger_entries]: the primary key is drawn by the column
    default, then the engine checks the two foreign keys. *)
Definition insert_entry (D : Database) (s : Store) (e : PendingEntry)
  : Result unit * Store :=
  let row := mkLedgerEntry (uuid4_drawn s) (pe_account_id e)
               (pe_transaction_id e) (pe_entry_type e) (pe_amount e) in
  let drawn := mkStore (accounts s) (transactions s) (ledger_entries s)
                 (S (uuid4_drawn s)) in
  match db_foreign_keys D with
  | Some msg =>
      if has_account s (pe_account_id e) && has_transaction s (pe_transaction_id e)
      then (Return tt,
            mkStore (accounts s) (transactions s) (ledger_entries s ++ [row])
              (S (uuid4_drawn s)))
      else (Raise (IntegrityError msg), drawn)
  | None =>
      (Return tt,
       mkStore (accounts s) (transactions s) (ledger_entries s ++ [row])
         (S (uuid4_drawn s)))
  end.

Fixpoint insert_entries (D : Database) (s : Store) (es : list PendingEntry)
  : Result unit * Store :=
  match es with
  | [] => (Return tt, s)
  | e :: rest =>
      match insert_entry D s e with
      | (Return _, s') => insert_entries D s' rest
      | (Raise x, s') => (Raise x, s')
      end
  end.

(** [db.flush()]: the pending objects are written in the order they were
    added. *)
Definition db_flush (D : Database) : M unit :=
  fun ss =>
    match insert_entries D (db ss) (pending ss) with
    | (r, s') => (r, mkSession s' [])
    end.

(** A rollback restores the three tables; the keys drawn meanwhile are
    lost. *)
Definition rollback (snapshot : Store) (ss : Session) : Session :=
  mkSession
    (mkStore (accounts snapshot) (transactions snapshot)
       (ledger_entries snapshot) (uuid4_drawn (db ss)))
    [].

(** [with db.begin(): body]: commit (with its flush) when the body
    returns, rollback when the body or the flush raises; the exception is
    raised again. *)
Definition db_begin {A} (D : Database) (body : M A) : M A :=
  fun ss =>
    match body ss with
    | (Return a, ss1) =>
        match db_flush D ss1 with
        | (Return _, ss2) => (Return a, ss2)
        | (Raise e, ss2) => (Raise e, rollback (db ss) ss2)
        end
    | (Raise e, ss1) => (Raise e, rollback (db ss) ss1)
    end.

(** [models.Transaction(type=..., ...)]: the keyword constructor that
    [Base] gives the class.  The object keeps what was given for [type] and
    [status]. *)
Record TransactionObject := mkTransactionObject {
  obj_type : option string;
  obj_status : option string
}.

Fixpoint lookup (k : string) (kwargs : list (string * option string))
  : option string :=
  match kwargs with
  | [] => None
  | (k', v) :: rest => if String.eqb k k' then v else lookup k rest
  end.

Definition new_Transaction (D : Database) (kwargs : list (string * option string))
  : M TransactionObject :=
  match
    find (fun kv => negb (existsb (String.eqb (fst kv)) Transaction_attributes))
      kwargs
  with
  | Some (k, _) =>
      if Base_rejects_unknown_keywords D
      then raise (TypeError ("'" ++ k ++ "' is an invalid keyword argument for Transaction")%string)
      else ret (mkTransactionObject (lookup "type" kwargs) (lookup "status" kwargs))
  | None => ret (mkTransactionObject (lookup "type" kwargs) (lookup "status" kwargs))
  end.

(** [db.add(new_tx); db.flush()]: the row is written with the column
    defaults ([id] drawn, [status] "PENDING" when none was given; [type] is
    [nullable=False]) and the object now carries its key. *)
Definition db_add_flush_Transaction (D : Database) (o : TransactionObject)
  : M Transaction :=
  fun ss =>
    let s := db ss in
    match obj_type o with
    | None =>
        (Raise (IntegrityError "null value in column type of relation transactions"),
         mkSession (mkStore (accounts s) (transactions s) (ledger_entries s)
                      (S (uuid4_drawn s))) (pending ss))
    | Some ty =>
        let row := mkTransaction (uuid4_drawn s) ty
                     (match obj_status o with Some st => st | None => "PENDING" end) in
        match
          db_flush D (mkSession (mkStore (accounts s) (transactions s ++ [row])
                                   (ledger_entries s) (S (uuid4_drawn s)))
                        (pending ss))
        with
        | (Return _, ss') => (Return row, ss')
        | (Raise e, ss') => (Raise e, ss')
        end
    end.

(** [db.add(db_account); db.commit(); db.refresh(db_account)]: the row is
    written with the column defaults ([id] drawn, [status] "ACTIVE"). *)
Definition db_add_commit_Account (user_id account_type currency : string)
  : M Account :=
  fun ss =>
    let s := db ss in
    let row := mkAccount (uuid4_drawn s) user_id account_type currency "ACTIVE" in
    (Return row,
     mkSession (mkStore (accounts s ++ [row]) (transactions s) (ledger_entries s)
                  (S (uuid4_drawn s))) (pending ss)).

(** [try: body except Exception as e: handler(e)]. *)
Definition try_except {A} (body : M A) (handler : Exception -> M A) : M A :=
  fun ss =>
    match body ss with
    | (Return a, ss') => (Return a, ss')
    | (Raise e, ss') => handler e ss'
    end.

(** A handler is called with a fresh session on the store ([get_db]). *)
Definition call {A} (h : M A) (s : Store) : Result A * Store :=
  match h (mkSession s []) with
  | (r, ss) => (r, db ss)
  end.

(** ** The SQL of main.py *)

(** [SUM] over no row is [NULL]. *)
Definition sql_sum (xs : list Z) : option Z :=
  match xs with
  | [] => None
  | _ :: _ => Some (fold_right Z.add 0 xs)
  end.

Definition coalesce (v : option Z) (d : Z) : Z :=
  match v with
  | Some x => x
  | None => d
  end.

(** [CASE WHEN entry_type = 'CREDIT' THEN amount ELSE -amount END]. *)
Definition case_amount (e : LedgerEntry) : Z :=
  if EntryType_eqb (entry_type e) CREDIT then amount e else - amount e.

(** [SELECT COALESCE(SUM(CASE ...), 0) FROM ledger_entries
     WHERE account_id = :acc_id]. *)
Definition balance_query (acc : uuid) (s : Store) : Z :=
  coalesce
    (sql_sum (map case_amount
                (filter (fun e => Nat.eqb (account_id e) acc) (ledger_entries s))))
    0.

(** [SELECT SUM(CASE ...) FROM ledger_entries]. *)
Definition query (s : Store) : option Z :=
  sql_sum (map case_amount (ledger_entries s)).

(** [COUNT( * )] of the group of one [transaction_id]. *)
Definition group_count (t : uuid) (s : Store) : nat :=
  List.length (filter (fun e => Nat.eqb (transaction_id e) t) (ledger_entries s)).

(** [SELECT transaction_id FROM ledger_entries GROUP BY transaction_id
     HAVING (COUNT( * ) % 2) != 0]: one row per group that qualifies. *)
Definition transfer_integrity_query (s : Store) : list uuid :=
  filter (fun t => negb (Nat.eqb (group_count t s mod 2) 0))
    (nodup Nat.eq_dec (map transaction_id (ledger_entries s))).

(** [db.query(models.Account).filter(models.Account.id == id).first()]. *)
Definition query_Account_first (id : uuid) (s : Store) : option Account :=
  find (fun a => Nat.eqb (acc_id a) id) (accounts s).

(** ** Python values *)

(** [float(d)] of a decimal of ten-thousandths: the binary64 number nearest
    to [d / 10000], ties to even. *)
Definition float (d : Z) : spec_float :=
  match d with
  | Z0 => S754_zero false
  | Zpos m => SFdiv 53 1024 (S754_finite false m 0) (S754_finite false 10000 0)
  | Zneg m => SFdiv 53 1024 (S754_finite true m 0) (S754_finite false 10000 0)
  end.

(** [net_sum or 0]: [None] and a zero decimal are both falsy. *)
Definition or_0 (v : option Z) : Z :=
  match v with
  | None => 0
  | Some d => if d =? 0 then 0 else d
  end.

Inductive json :=
| JString (s : string)
| JKey (k : uuid).

Record IntegrityReport := mkIntegrityReport {
  total_system_liquidity : spec_float;
  unbalanced_transactions_count : nat;
  status : string
}.

(** ** The handlers of main.py *)

Definition create_new_account (account : AccountCreate) : M AccountResponse :=
  db_account <- db_add_commit_Account (ac_user_id account)
                  (ac_account_type account) (ac_currency account) ;;
  ret (mkAccountResponse (acc_id db_account) (acc_user_id db_account)
         (acc_account_type db_account) (acc_currency db_account)
         (acc_status db_account) 0).

Definition get_account_details (id : uuid) : M AccountResponse :=
  account <- db_read (query_Account_first id) ;;
  match account with
  | None => raise (HTTPException 404 "Account not found")
  | Some account =>
      current_balance <- db_read (balance_query id) ;;
      ret (mkAccountResponse (acc_id account) (acc_user_id account)
             (acc_account_type account) (acc_currency account)
             (acc_status account) current_balance)
  end.

Definition integrity_check : M IntegrityReport :=
  net_sum <- db_read query ;;
  unbalanced_txs <- db_read transfer_integrity_query ;;
  ret (mkIntegrityReport
         (float (or_0 net_sum))
         (List.length unbalanced_txs)
         (if Nat.eqb (List.length unbalanced_txs) 0
          then "Healthy" else "Integrity Compromised")).

Definition deposit_funds (D : Database) (deposit : DepositRequest)
  : M (list (string * json)) :=
  if dep_amount deposit <=? 0
  then raise (HTTPException 400 "Amount must be positive")
  else
    db_begin D (
      new_tx0 <- new_Transaction D
                   [("type", Some "DEPOSIT");
                    ("description", dep_description deposit);
                    ("status", Some "COMPLETED")] ;;
      new_tx <- db_add_flush_Transaction D new_tx0 ;;
      db_add (mkPendingEntry (dep_account_id deposit) (tx_id new_tx)
                CREDIT (dep_amount deposit))) ;;;
    ret [("message", JString "Deposit successful")].

(** [except Exception as e: if isinstance(e, HTTPException): raise e;
     raise HTTPException(status_code=500, detail=str(e))]. *)
Definition reraise {A} (e : Exception) : M A :=
  match e with
  | HTTPException _ _ => raise e
  | TypeError msg => raise (HTTPException 500 msg)
  | IntegrityError msg => raise (HTTPException 500 msg)
  end.

Definition withdraw_funds (D : Database) (withdrawal : WithdrawalRequest)
  : M (list (string * json)) :=
  if wd_amount withdrawal <=? 0
  then raise (HTTPException 400 "Amount must be positive")
  else
    try_except (
      db_begin D (
        account <- db_read (query_Account_first (wd_account_id withdrawal)) ;;
        match account with
        | None => raise (HTTPException 404 "Account not found")
        | Some _ =>
            current_balance <- db_read (balance_query (wd_account_id withdrawal)) ;;
            if current_balance <? wd_amount withdrawal
            then raise (HTTPException 422 "Insufficient funds")
            else
              new_tx0 <- new_Transaction D
                           [("type", Some "WITHDRAWAL");
                            ("description", wd_description withdrawal);
                            ("status", Some "COMPLETED")] ;;
              new_tx <- db_add_flush_Transaction D new_tx0 ;;
              db_add (mkPendingEntry (wd_account_id withdrawal) (tx_id new_tx)
                        DEBIT (wd_amount withdrawal))
        end) ;;;
      ret [("message", JString "Withdrawal successful")])
    reraise.

Definition execute_transfer (D : Database) (transfer : TransferRequest)
  : M (list (string * json)) :=
  if tr_amount transfer <=? 0
  then raise (HTTPException 400 "Transfer amount must be positive")
  else
    try_except (
      new_tx <- db_begin D (
        source_account <- db_read (query_Account_first (source_account_id transfer)) ;;
        match source_account with
        | None => raise (HTTPException 404 "Source account not found")
        | Some _ =>
            source_balance <- db_read (balance_query (source_account_id transfer)) ;;
            if source_balance <? tr_amount transfer
            then raise (HTTPException 422 "Insufficient funds")
            else
              new_tx0 <- new_Transaction D
                           [("type", Some "TRANSFER");
                            ("description", tr_description transfer);
                            ("status", Some "COMPLETED")] ;;
              new_tx <- db_add_flush_Transaction D new_tx0 ;;
              db_add_all
                [mkPendingEntry (source_account_id transfer) (tx_id new_tx)
                   DEBIT (tr_amount transfer);
                 mkPendingEntry (destination_account_id transfer) (tx_id new_tx)
                   CREDIT (tr_amount transfer)] ;;;
              ret new_tx
        end) ;;
      ret [("message", JString "Transfer successful");
           ("transaction_id", JKey (tx_id new_tx))])
    reraise.

(** ** Sequences of requests *)

Inductive Request :=
| POST_accounts (account : AccountCreate)
| POST_deposits (deposit : DepositRequest)
| POST_withdrawals (withdrawal : WithdrawalRequest)
| POST_transfers (transfer : TransferRequest).

(** The store after one request.  The three [GET] handlers only read. *)
Definition step (D : Database) (s : Store) (r : Request) : Store :=
  match r with
  | POST_accounts a => snd (call (create_new_account a) s)
  | POST_deposits d => snd (call (deposit_funds D d) s)
  | POST_withdrawals w => snd (call (withdraw_funds D w) s)
  | POST_transfers t => snd (call (execute_transfer D t) s)
  end.

Definition run (D : Database) (rs : list Request) (s : Store) : Store :=
  fold_left (step D) rs s.

(** A store is reachable when some sequence of requests builds it from the
    empty store. *)
Definition reachable (D : Database) (s : Store) : Prop :=
  exists rs, s = run D rs empty_store.

(** ** Withdrawals against one account, one after the other *)


(** ** The outcomes of a request *)

(** The failures of the handlers by status code: 400, 404 and 422. *)
Definition ValidationError (e : Exception) : Prop :=
  exists detail, e = HTTPException 400 detail.
Definition NotFound (e : Exception) : Prop :=
  exists detail, e = HTTPException 404 detail.
Definition InsufficientFunds (e : Exception) : Prop :=
  exists detail, e = HTTPException 422 detail.

Definition is_NotFound {A} (r : Result A) : bool :=
  match r with
  | Raise (HTTPException code _) => Nat.eqb code 404
  | _ => false
  end.

Definition succeeded {A} (r : Result A) : bool :=
  match r with
  | Return _ => true
  | Raise _ => false
  end.

Definition is_InsufficientFunds {A} (r : Result A) : bool :=
  match r with
  | Raise (HTTPException code _) => Nat.eqb code 422
  | _ => false
  end.

Definition count {A} (p : A -> bool) (l : list A) : Z :=
  Z.of_nat (List.length (filter p l)).

(** ** Notions of the statements *)

(** The ledger entries of one transaction, and those on one account. *)
Definition entries_of (t : uuid) (s : Store) : list LedgerEntry :=
  filter (fun e => Nat.eqb (transaction_id e) t) (ledger_entries s).

Definition entries_on (a : uuid) (es : list LedgerEntry) : list LedgerEntry :=
  filter (fun e => Nat.eqb (account_id e) a) es.

(** The sum of a list of amounts; 0 for the empty list. *)
Definition total (xs : list Z) : Z := fold_right Z.add 0 xs.

(** The balance in the words of the specification: the sum of the amounts
    of the CREDIT entries of the account minus the sum of the amounts of its
    DEBIT entries. *)
Definition sum_of (ty : EntryType) (a : uuid) (s : Store) : Z :=
  total (map amount
           (filter (fun e => EntryType_eqb (entry_type e) ty)
              (entries_on a (ledger_entries s)))).

Definition Balance (a : uuid) (s : Store) : Z :=
  sum_of CREDIT a s - sum_of DEBIT a s.

(** ** What a request can do to the store *)

(** The five shapes of a step: nothing but lost keys, a new account, a
    committed deposit, a committed withdrawal, a committed transfer. *)
Inductive commit (s : Store) : Store -> Prop :=
| commit_nothing n :
    (uuid4_drawn s <= n)%nat ->
    commit s (mkStore (accounts s) (transactions s) (ledger_entries s) n)
| commit_account u t c :
    commit s
      (mkStore (accounts s ++ [mkAccount (uuid4_drawn s) u t c "ACTIVE"])
         (transactions s) (ledger_entries s) (S (uuid4_drawn s)))
| commit_deposit a amt :
    0 < amt ->
    commit s
      (mkStore (accounts s)
         (transactions s ++ [mkTransaction (uuid4_drawn s) "DEPOSIT" "COMPLETED"])
         (ledger_entries s ++
            [mkLedgerEntry (S (uuid4_drawn s)) a (uuid4_drawn s) CREDIT amt])
         (S (S (uuid4_drawn s))))
| commit_withdrawal a amt :
    0 < amt -> amt <= balance_query a s ->
    commit s
      (mkStore (accounts s)
         (transactions s ++ [mkTransaction (uuid4_drawn s) "WITHDRAWAL" "COMPLETED"])
         (ledger_entries s ++
            [mkLedgerEntry (S (uuid4_drawn s)) a (uuid4_drawn s) DEBIT amt])
         (S (S (uuid4_drawn s))))
| commit_transfer src dst amt :
    0 < amt -> amt <= balance_query src s ->
    commit s
      (mkStore (accounts s)
         (transactions s ++ [mkTransaction (uuid4_drawn s) "TRANSFER" "COMPLETED"])
         (ledger_entries s ++
            [mkLedgerEntry (S (uuid4_drawn s)) src (uuid4_drawn s) DEBIT amt;
             mkLedgerEntry (S (S (uuid4_drawn s))) dst (uuid4_drawn s) CREDIT amt])
         (S (S (S (uuid4_drawn s))))).

(** ** Consistency of the reachable stores *)

(** How a transaction is booked: its entries, by type. *)
Inductive booked (s : Store) (tx : Transaction) : Prop :=
| booked_deposit e :
    tx_type tx = "DEPOSIT" ->
    entries_of (tx_id tx) s = [e] -> entry_type e = CREDIT ->
    booked s tx
| booked_withdrawal e :
    tx_type tx = "WITHDRAWAL" ->
    entries_of (tx_id tx) s = [e] -> entry_type e = DEBIT ->
    booked s tx
| booked_transfer d c :
    tx_type tx = "TRANSFER" ->
    entries_of (tx_id tx) s = [d; c] ->
    entry_type d = DEBIT -> entry_type c = CREDIT -> amount d = amount c ->
    booked s tx.

Record consistent (s : Store) : Prop := mkConsistent {
  tx_key_drawn :
    forall tx, In tx (transactions s) -> (tx_id tx < uuid4_drawn s)%nat;
  entry_tx_drawn :
    forall e, In e (ledger_entries s) -> (transaction_id e < uuid4_drawn s)%nat;
  tx_completed :
    forall tx, In tx (transactions s) -> tx_status tx = "COMPLETED";
  tx_booked :
    forall tx, In tx (transactions s) -> booked s tx;
  no_overdraft :
    forall a, 0 <= balance_query a s
}.

(** ** Stores and databases of the examples *)

(** An engine that checks foreign keys and one that does not, both under a
    [Base] whose constructor accepts the [description] keyword, and the
    checking engine under SQLAlchemy's declarative constructor. *)
Definition checked_db : Database :=
  mkDatabase (Some "violates foreign key constraint") false.
Definition unchecked_db : Database := mkDatabase None false.
Definition declarative_db : Database :=
  mkDatabase (Some "violates foreign key constraint") true.

(** The store of the concurrency test after its funding: two accounts, 100
    deposited on the first. *)
Definition funded : Store :=
  run checked_db
    [POST_accounts (mkAccountCreate "sender_001" "checking" "USD");
     POST_accounts (mkAccountCreate "receiver_001" "savings" "USD");
     POST_deposits (mkDepositRequest 0%nat 1000000 (Some "Test Funding"))]
    empty_store.

(** One account funded with 100 that then transfers 1 to itself. *)
Definition after_self_transfer : Store :=
  run checked_db
    [POST_accounts (mkAccountCreate "sender_001" "checking" "USD");
     POST_deposits (mkDepositRequest 0%nat 1000000 (Some "Test Funding"));
     POST_transfers (mkTransferRequest 0%nat 0%nat 10000 (Some "Internal Transfer"))]
    empty_store.


(** ** Two properties in the words of the specification *)



(** ** The ledger history *)

(** [ORDER BY created_at DESC].  The column [created_at] of an entry is
    written once, by its default, when the row is inserted; it is given here
    as a function of the primary key of the row.  Rows are placed by
    insertion, a row going before the first row that is not newer. *)
Fixpoint insert_desc (created_at : uuid -> Z) (e : LedgerEntry)
    (l : list LedgerEntry) : list LedgerEntry :=
  match l with
  | [] => [e]
  | x :: rest =>
      if created_at (entry_id x) <=? created_at (entry_id e)
      then e :: x :: rest
      else x :: insert_desc created_at e rest
  end.

Definition order_by_created_at_desc (created_at : uuid -> Z)
    (l : list LedgerEntry) : list LedgerEntry :=
  fold_right (insert_desc created_at) [] l.

(** [db.query(models.LedgerEntry).filter(account_id == id)
       .order_by(created_at.desc()).all()]; no account is looked up. *)
Definition get_ledger_history (created_at : uuid -> Z) (id : uuid)
  : M (list LedgerEntry) :=
  entries <- db_read (fun s =>
               order_by_created_at_desc created_at
                 (filter (fun e => Nat.eqb (account_id e) id) (ledger_entries s))) ;;
  ret entries.

(** ** Transfers from one account, one after the other *)

(** As for withdrawals, [with_for_update] on the source row lets the
    transfers out of one account through one at a time
    ([run_concurrency_test] of test_ledger.py fires ten of them). *)
Fixpoint transfer_all (D : Database) (ts : list TransferRequest) (s : Store)
  : list (Result (list (string * json))) * Store :=
  match ts with
  | [] => ([], s)
  | t :: rest =>
      match call (execute_transfer D t) s with
      | (r, s') =>
          match transfer_all D rest s' with
          | (rs, s'') => (r :: rs, s'')
          end
      end
  end.

(** ** Further notions of the statements *)

(** The status code of a failure that a handler raises itself; [None] for
    an exception that is not an [HTTPException]. *)
Definition status_code_of {A} (r : Result A) : option nat :=
  match r with
  | Raise (HTTPException code _) => Some code
  | _ => None
  end.

(** A step with what the handlers and the engine have checked about the
    accounts: the account of a withdrawal and the source of a transfer are
    rows; the account of a deposit and the destination of a transfer are
    rows when the engine checks foreign keys. *)
Inductive posting (D : Database) (s : Store) : Store -> Prop :=
| posting_nothing n :
    (uuid4_drawn s <= n)%nat ->
    posting D s (mkStore (accounts s) (transactions s) (ledger_entries s) n)
| posting_account u t c :
    posting D s
      (mkStore (accounts s ++ [mkAccount (uuid4_drawn s) u t c "ACTIVE"])
         (transactions s) (ledger_entries s) (S (uuid4_drawn s)))
| posting_deposit a amt :
    0 < amt ->
    (db_foreign_keys D <> None -> has_account s a = true) ->
    posting D s
      (mkStore (accounts s)
         (transactions s ++ [mkTransaction (uuid4_drawn s) "DEPOSIT" "COMPLETED"])
         (ledger_entries s ++
            [mkLedgerEntry (S (uuid4_drawn s)) a (uuid4_drawn s) CREDIT amt])
         (S (S (uuid4_drawn s))))
| posting_withdrawal a amt :
    0 < amt -> amt <= balance_query a s ->
    has_account s a = true ->
    posting D s
      (mkStore (accounts s)
         (transactions s ++ [mkTransaction (uuid4_drawn s) "WITHDRAWAL" "COMPLETED"])
         (ledger_entries s ++
            [mkLedgerEntry (S (uuid4_drawn s)) a (uuid4_drawn s) DEBIT amt])
         (S (S (uuid4_drawn s))))
| posting_transfer src dst amt :
    0 < amt -> amt <= balance_query src s ->
    has_account s src = true ->
    (db_foreign_keys D <> None -> has_account s dst = true) ->
    posting D s
      (mkStore (accounts s)
         (transactions s ++ [mkTransaction (uuid4_drawn s) "TRANSFER" "COMPLETED"])
         (ledger_entries s ++
            [mkLedgerEntry (S (uuid4_drawn s)) src (uuid4_drawn s) DEBIT amt;
             mkLedgerEntry (S (S (uuid4_drawn s))) dst (uuid4_drawn s) CREDIT amt])
         (S (S (S (uuid4_drawn s))))).

(** Keys and references of a store. *)
Record intact (D : Database) (s : Store) : Prop := mkIntact {
  intact_account_key :
    forall a, In a (accounts s) -> (acc_id a < uuid4_drawn s)%nat;
  intact_transaction_key :
    forall tx, In tx (transactions s) -> (tx_id tx < uuid4_drawn s)%nat;
  intact_entry_key :
    forall e, In e (ledger_entries s) -> (entry_id e < uuid4_drawn s)%nat;
  intact_accounts : NoDup (map acc_id (accounts s));
  intact_transactions : NoDup (map tx_id (transactions s));
  intact_entries : NoDup (map entry_id (ledger_entries s));
  intact_entry_transaction :
    forall e, In e (ledger_entries s) -> has_transaction s (transaction_id e) = true;
  intact_debit_account :
    forall e, In e (ledger_entries s) -> entry_type e = DEBIT ->
              has_account s (account_id e) = true;
  intact_entry_account :
    db_foreign_keys D <> None ->
    forall e, In e (ledger_entries s) -> has_account s (account_id e) = true;
  intact_amount :
    forall e, In e (ledger_entries s) -> 0 < amount e
}.

(** The transactions that are booked with a single entry. *)
Definition single_entry (tx : Transaction) : bool :=
  String.eqb (tx_type tx) "DEPOSIT" || String.eqb (tx_type tx) "WITHDRAWAL".

(** The decimal that [integrity_check] converts to a float. *)
Definition net_liquidity (s : Store) : Z := or_0 (query s).

(** The sum of the balances of a list of account keys. *)
Definition balances (keys : list uuid) (s : Store) : Z :=
  total (map (fun a => balance_query a s) keys).

(** The ten transfers of 20 of [run_concurrency_test]. *)
Definition ten_transfers : list TransferRequest :=
  repeat (mkTransferRequest 0%nat 1%nat 200000 (Some "Internal Transfer")) 10.

(** The answers that are a success or an [HTTPException] with one of the
    four status codes that main.py raises. *)
Definition answers_http {A} (r : Result A) : bool :=
  match r with
  | Return _ => true
  | Raise (HTTPException code _) => existsb (Nat.eqb code) [400; 404; 422; 500]%nat
  | Raise _ => false
  end.

(** Two stores with the same rows in the three tables. *)
Definition same_tables (s s' : Store) : Prop :=
  accounts s' = accounts s /\
  transactions s' = transactions s /\
  ledger_entries s' = ledger_entries s.

(** ** Evaluation of the handlers *)

#[local] Arguments balance_query : simpl never.
#[local] Arguments query_Account_first : simpl never.
#[local] Arguments entries_of : simpl never.
#[local] Arguments transfer_integrity_query : simpl never.
#[local] Arguments query : simpl never.

Ltac unfold_handlers :=
  unfold call, deposit_funds, withdraw_funds, execute_transfer,
    create_new_account, get_account_details, integrity_check,
    try_except, db_begin, bind, ret, raise, reraise, db_read, db_add, db_add_all,
    new_Transaction, db_add_flush_Transaction, db_add_commit_Account,
    db_flush, rollback, insert_entries, insert_entry,
    has_account, has_transaction in *.

Lemma has_new_transaction (txs : list Transaction) (n : uuid) (ty st : string) :
  existsb (fun tx => Nat.eqb (tx_id tx) n) (txs ++ [mkTransaction n ty st]) = true.
Proof. rewrite existsb_app. cbn. now rewrite Nat.eqb_refl, orb_true_r. Qed.

(** One case split along the control flow of a handler. *)
Ltac branch :=
  match goal with
  | |- context [Z.leb ?a ?b] => destruct (Z.leb a b) eqn:?
  | |- context [Z.ltb ?a ?b] => destruct (Z.ltb a b) eqn:?
  | |- context [query_Account_first ?a ?s] =>
      destruct (query_Account_first a s) eqn:?
  | |- context [Base_rejects_unknown_keywords ?D] =>
      destruct (Base_rejects_unknown_keywords D) eqn:?
  | |- context [db_foreign_keys ?D] => destruct (db_foreign_keys D) eqn:?
  | |- context [existsb ?f ?l] => destruct (existsb f l) eqn:?
  end.

Ltac run_handler :=
  unfold_handlers; cbn;
  repeat (rewrite ?has_new_transaction, ?andb_true_r, <- ?app_assoc; cbn;
          branch; cbn);
  rewrite <- ?app_assoc; cbn.

Lemma step_commit (D : Database) (s : Store) (r : Request) :
  commit s (step D s r).
Proof.
  destruct s as [accs txs es n], r as [a | d | w | t]; unfold step;
    run_handler;
    repeat match goal with
           | H : (_ <=? _) = false |- _ => apply Z.leb_gt in H
           | H : (_ <? _) = false |- _ => apply Z.ltb_ge in H
           end;
    first [ apply (commit_nothing (mkStore accs txs es n)); cbn; lia
          | apply (commit_account (mkStore accs txs es n))
          | now apply (commit_deposit (mkStore accs txs es n))
          | now apply (commit_withdrawal (mkStore accs txs es n))
          | now apply (commit_transfer (mkStore accs txs es n)) ].
Qed.

(** ** Balances as sums *)

Lemma coalesce_sql_sum (xs : list Z) : coalesce (sql_sum xs) 0 = total xs.
Proof. destruct xs; reflexivity. Qed.

Lemma total_app (xs ys : list Z) : total (xs ++ ys) = total xs + total ys.
Proof. unfold total. induction xs as [| x xs IH]; cbn; [ reflexivity | lia ]. Qed.

Lemma balance_query_total (a : uuid) (s : Store) :
  balance_query a s = total (map case_amount (entries_on a (ledger_entries s))).
Proof. unfold balance_query. apply coalesce_sql_sum. Qed.

Lemma balance_query_app (a : uuid) (accs accs' : list Account)
    (txs txs' : list Transaction) (es new : list LedgerEntry) (n n' : nat) :
  balance_query a (mkStore accs' txs' (es ++ new) n')
  = balance_query a (mkStore accs txs es n)
    + total (map case_amount (entries_on a new)).
Proof.
  rewrite !balance_query_total. cbn. unfold entries_on.
  now rewrite filter_app, map_app, total_app.
Qed.

Lemma total_case_amount (es : list LedgerEntry) :
  total (map case_amount es)
  = total (map amount (filter (fun e => EntryType_eqb (entry_type e) CREDIT) es))
    - total (map amount (filter (fun e => EntryType_eqb (entry_type e) DEBIT) es)).
Proof.
  induction es as [| e es IH]; [ reflexivity | ].
  cbn [map filter]. unfold case_amount at 1.
  destruct (entry_type e); cbn; unfold total in *; cbn; lia.
Qed.

Lemma balance_query_Balance (a : uuid) (s : Store) :
  balance_query a s = Balance a s.
Proof. rewrite balance_query_total. apply total_case_amount. Qed.

(** ** Preservation of consistency *)

Lemma filter_nil_iff {A} (f : A -> bool) (l : list A) :
  (forall x, In x l -> f x = false) -> filter f l = [].
Proof.
  induction l as [| x l IH]; cbn; intros H; [ reflexivity | ].
  rewrite (H x (or_introl eq_refl)). apply IH. intros y Hy. apply H. now right.
Qed.

(** The entries of an older transaction are not touched by entries booked
    under a key drawn later. *)
Lemma entries_of_old (t n : uuid) accs accs' txs txs' es new k k' :
  (t < n)%nat ->
  (forall e, In e new -> transaction_id e = n) ->
  entries_of t (mkStore accs' txs' (es ++ new) k')
  = entries_of t (mkStore accs txs es k).
Proof.
  intros Hlt Hnew. unfold entries_of. cbn. rewrite filter_app.
  rewrite (filter_nil_iff _ new), app_nil_r; [ reflexivity | ].
  intros e He. apply Nat.eqb_neq. rewrite (Hnew e He). lia.
Qed.

(** The entries of a transaction whose key was just drawn are exactly the
    ones written with it. *)
Lemma entries_of_new (n : uuid) accs txs es new k :
  (forall e, In e es -> (transaction_id e < n)%nat) ->
  (forall e, In e new -> transaction_id e = n) ->
  entries_of n (mkStore accs txs (es ++ new) k) = new.
Proof.
  intros Hold Hnew. unfold entries_of. cbn. rewrite filter_app.
  rewrite (filter_nil_iff _ es); cbn.
  - induction new as [| e new IH]; cbn; [ reflexivity | ].
    rewrite (Hnew e (or_introl eq_refl)), Nat.eqb_refl. f_equal.
    apply IH. intros e' He'. apply Hnew. now right.
  - intros e He. apply Nat.eqb_neq. specialize (Hold e He). lia.
Qed.

Lemma booked_old (s : Store) accs' txs' new k' (tx : Transaction) :
  (tx_id tx < uuid4_drawn s)%nat ->
  (forall e, In e new -> transaction_id e = uuid4_drawn s) ->
  booked s tx ->
  booked (mkStore accs' txs' (ledger_entries s ++ new) k') tx.
Proof.
  destruct s as [accs txs es n]. cbn. intros Hlt Hnew Hb.
  pose proof (entries_of_old (tx_id tx) n accs accs' txs txs' es new n k' Hlt Hnew) as E.
  destruct Hb as [e Ht He Hc | e Ht He Hc | d c Ht He Hd Hc Ha].
  - apply (booked_deposit _ _ e); congruence.
  - apply (booked_withdrawal _ _ e); congruence.
  - apply (booked_transfer _ _ d c); congruence.
Qed.

Lemma consistent_empty : consistent empty_store.
Proof. split; cbn; intros; try contradiction. reflexivity. Qed.

Ltac in_snoc H :=
  apply in_app_or in H; destruct H as [H | [H | []]].

Lemma commit_consistent (s s' : Store) :
  consistent s -> commit s s' -> consistent s'.
Proof.
  intros [Hk He Hc Hb Ho] Hstep.
  destruct Hstep as [n Hn | u t c | a amt Hamt | a amt Hamt Hbal
                    | src dst amt Hamt Hbal].
  - (* nothing written *)
    split; cbn; intros.
    + specialize (Hk _ H). lia.
    + specialize (He _ H). lia.
    + auto.
    + destruct s as [accs txs es k]. destruct (Hb _ H) as [e ? ? ? | e ? ? ? | d c' ? ? ? ? ?].
      * now apply (booked_deposit _ _ e).
      * now apply (booked_withdrawal _ _ e).
      * now apply (booked_transfer _ _ d c').
    + destruct s as [accs txs es k]. apply Ho.
  - (* a new account *)
    split; cbn; intros.
    + specialize (Hk _ H). lia.
    + specialize (He _ H). lia.
    + auto.
    + destruct s as [accs txs es k]. destruct (Hb _ H) as [e ? ? ? | e ? ? ? | d c' ? ? ? ? ?].
      * now apply (booked_deposit _ _ e).
      * now apply (booked_withdrawal _ _ e).
      * now apply (booked_transfer _ _ d c').
    + destruct s as [accs txs es k]. apply Ho.
  - (* a deposit *)
    split; cbn; intros.
    + in_snoc H; [ specialize (Hk _ H); lia | subst tx; cbn; lia ].
    + in_snoc H; [ specialize (He _ H); lia | subst e; cbn; lia ].
    + in_snoc H; [ auto | now subst tx ].
    + in_snoc H.
      * apply booked_old; auto. intros e [<- | []]. reflexivity.
      * subst tx. destruct s as [accs txs es k]. cbn in *.
        eapply booked_deposit; cbn;
          [ reflexivity
          | apply entries_of_new; [ exact He | intros e [<- | []]; reflexivity ]
          | reflexivity ].
    + destruct s as [accs txs es k]. cbn.
      rewrite (balance_query_app a0 accs accs txs _ es _ k).
      specialize (Ho a0). unfold entries_on, case_amount. cbn.
      destruct (Nat.eqb a a0); cbn; unfold total; cbn; lia.
  - (* a withdrawal *)
    split; cbn; intros.
    + in_snoc H; [ specialize (Hk _ H); lia | subst tx; cbn; lia ].
    + in_snoc H; [ specialize (He _ H); lia | subst e; cbn; lia ].
    + in_snoc H; [ auto | now subst tx ].
    + in_snoc H.
      * apply booked_old; auto. intros e [<- | []]. reflexivity.
      * subst tx. destruct s as [accs txs es k]. cbn in *.
        eapply booked_withdrawal; cbn;
          [ reflexivity
          | apply entries_of_new; [ exact He | intros e [<- | []]; reflexivity ]
          | reflexivity ].
    + destruct s as [accs txs es k]. cbn.
      rewrite (balance_query_app a0 accs accs txs _ es _ k).
      specialize (Ho a0). unfold entries_on, case_amount. cbn.
      destruct (Nat.eqb a a0) eqn:E; cbn; unfold total; cbn; [ | lia ].
      apply Nat.eqb_eq in E. subst a0. lia.
  - (* a transfer *)
    split; cbn; intros.
    + in_snoc H; [ specialize (Hk _ H); lia | subst tx; cbn; lia ].
    + apply in_app_or in H. destruct H as [H | [H | [H | []]]];
        [ specialize (He _ H); lia | subst e; cbn; lia | subst e; cbn; lia ].
    + in_snoc H; [ auto | now subst tx ].
    + in_snoc H.
      * apply booked_old; auto. intros e [<- | [<- | []]]; reflexivity.
      * subst tx. destruct s as [accs txs es k]. cbn in *.
        eapply booked_transfer; cbn;
          [ reflexivity
          | apply entries_of_new;
            [ exact He | intros e [<- | [<- | []]]; reflexivity ]
          | reflexivity | reflexivity | reflexivity ].
    + destruct s as [accs txs es k]. cbn.
      rewrite (balance_query_app a accs accs txs _ es _ k).
      pose proof (Ho a) as Ha. unfold entries_on, case_amount. cbn.
      destruct (Nat.eqb src a) eqn:E; destruct (Nat.eqb dst a) eqn:E';
        cbn; unfold total; cbn; try lia;
        apply Nat.eqb_eq in E; subst a; lia.
Qed.

Lemma run_snoc (D : Database) (rs : list Request) (r : Request) (s : Store) :
  run D (rs ++ [r]) s = step D (run D rs s) r.
Proof. unfold run. now rewrite fold_left_app. Qed.

Lemma reachable_consistent (D : Database) (s : Store) :
  reachable D s -> consistent s.
Proof.
  intros [rs ->]. induction rs as [| r rs IH] using rev_ind.
  - apply consistent_empty.
  - rewrite run_snoc. eapply commit_consistent; [ exact IH | apply step_commit ].
Qed.

Lemma reachable_step (D : Database) (s : Store) (r : Request) :
  reachable D s -> reachable D (step D s r).
Proof. intros [rs ->]. exists (rs ++ [r]). symmetry. apply run_snoc. Qed.

(** ** Single requests *)

Lemma has_account_first (s : Store) (a : uuid) :
  has_account s a = true -> exists acc, query_Account_first a s = Some acc.
Proof.
  unfold has_account, query_Account_first.
  induction (accounts s) as [| x l IH]; cbn; [ discriminate | ].
  destruct (Nat.eqb (acc_id x) a); cbn; [ intros _; now exists x | exact IH ].
Qed.

Lemma In_has_account (s : Store) (acc : Account) :
  In acc (accounts s) -> has_account s (acc_id acc) = true.
Proof.
  intros H. apply existsb_exists. exists acc. split; [ exact H | apply Nat.eqb_refl ].
Qed.


Lemma withdraw_funds_insufficient (D : Database) (s : Store) (w : WithdrawalRequest) :
  has_account s (wd_account_id w) = true ->
  0 < wd_amount w ->
  balance_query (wd_account_id w) s < wd_amount w ->
  call (withdraw_funds D w) s = (Raise (HTTPException 422 "Insufficient funds"), s).
Proof.
  intros Hacc Hpos Hbal.
  destruct (has_account_first _ _ Hacc) as [acc Hfirst].
  apply Z.leb_gt in Hpos. apply Z.ltb_lt in Hbal.
  destruct s as [accs txs es n].
  unfold_handlers. cbn. rewrite Hpos. cbn. rewrite Hfirst. cbn. rewrite Hbal.
  reflexivity.
Qed.

Lemma execute_transfer_insufficient (D : Database) (s : Store) (t : TransferRequest) :
  has_account s (source_account_id t) = true ->
  0 < tr_amount t ->
  balance_query (source_account_id t) s < tr_amount t ->
  call (execute_transfer D t) s = (Raise (HTTPException 422 "Insufficient funds"), s).
Proof.
  intros Hacc Hpos Hbal.
  destruct (has_account_first _ _ Hacc) as [acc Hfirst].
  apply Z.leb_gt in Hpos. apply Z.ltb_lt in Hbal.
  destruct s as [accs txs es n].
  unfold_handlers. cbn. rewrite Hpos. cbn. rewrite Hfirst. cbn. rewrite Hbal.
  reflexivity.
Qed.



(** With the constructor of SQLAlchemy's declarative base, no deposit,
    withdrawal or transfer is ever committed: [models.Transaction] maps no
    [description]. *)
Lemma declarative_Base_commits_nothing (D : Database) (s : Store) (r : Request) :
  Base_rejects_unknown_keywords D = true ->
  transactions (step D s r) = transactions s /\
  ledger_entries (step D s r) = ledger_entries s.
Proof.
  intros Hbase.
  destruct s as [accs txs es n], r as [a | d | w | t]; unfold step;
    unfold_handlers; cbn; rewrite ?Hbase;
    repeat (branch; cbn; rewrite ?Hbase; cbn); auto; discriminate.
Qed.

Lemma reachable_funded : reachable checked_db funded.
Proof.
  exists [POST_accounts (mkAccountCreate "sender_001" "checking" "USD");
          POST_accounts (mkAccountCreate "receiver_001" "savings" "USD");
          POST_deposits (mkDepositRequest 0%nat 1000000 (Some "Test Funding"))].
  reflexivity.
Defined.

Lemma reachable_after_self_transfer : reachable checked_db after_self_transfer.
Proof.
  exists [POST_accounts (mkAccountCreate "sender_001" "checking" "USD");
          POST_deposits (mkDepositRequest 0%nat 1000000 (Some "Test Funding"));
          POST_transfers (mkTransferRequest 0%nat 0%nat 10000 (Some "Internal Transfer"))].
  reflexivity.
Defined.

(** The two [GET] handlers leave the store as it is. *)
Lemma reads_keep_store (s : Store) (id : uuid) :
  snd (call (get_account_details id) s) = s /\
  snd (call integrity_check s) = s.
Proof.
  destruct s as [accs txs es n]. split; unfold_handlers; cbn.
  - destruct (query_Account_first _ _); reflexivity.
  - reflexivity.
Qed.

Lemma is_NotFound_iff {A} (e : Exception) :
  is_NotFound (@Raise A e) = true <-> NotFound e.
Proof.
  destruct e as [code detail | msg | msg]; cbn; split;
    try discriminate; try (intros [d Hd]; discriminate).
  - intros H. apply Nat.eqb_eq in H. subst code. now exists detail.
  - intros [d Hd]. injection Hd as -> _. reflexivity.
Qed.

(** [float(Decimal("1.5"))] is 1.5, that is 3 * 2^51 * 2^-52, and
    [float(Decimal("0.0001"))] is the binary64 number 0x3F1A36E2EB1C432D. *)
Example float_examples :
  float 15000 = S754_finite false 6755399441055744 (-52) /\
  float 1 = S754_finite false 7378697629483821 (-66).
Proof. split; reflexivity. Qed.

(** Under SQLAlchemy's declarative constructor the deposit of the
    concurrency test is not committed. *)
Example declarative_deposit :
  call (deposit_funds declarative_db
          (mkDepositRequest 0%nat 1000000 (Some "Test Funding")))
    (mkStore [mkAccount 0%nat "sender_001" "checking" "USD" "ACTIVE"] [] [] 1%nat)
  = (Raise (TypeError "'description' is an invalid keyword argument for Transaction"),
     mkStore [mkAccount 0%nat "sender_001" "checking" "USD" "ACTIVE"] [] [] 1%nat).
Proof. reflexivity. Qed.

(** ** The claims *)

(** C1.  A withdrawal, or a transfer, of a positive amount from an existing
    account whose balance is below the amount fails with 422 Insufficient
    funds and leaves the store as it was: no transaction row, no entry row,
    not even a key drawn. *)
Theorem insufficient_funds_rejected
    (D : Database) (s : Store) (a dst : uuid) (amt : Z) (desc : option string) :
  0 < amt ->
  has_account s a = true ->
  balance_query a s < amt ->
  (exists e, InsufficientFunds e /\
     call (withdraw_funds D (mkWithdrawalRequest a amt desc)) s = (Raise e, s)) /\
  (exists e, InsufficientFunds e /\
     call (execute_transfer D (mkTransferRequest a dst amt desc)) s = (Raise e, s)).
Proof.
  intros Hpos Hacc Hbal. split;
    exists (HTTPException 422 "Insufficient funds");
    (split; [ now exists "Insufficient funds" | ]).
  - now apply withdraw_funds_insufficient.
  - now apply execute_transfer_insufficient.
Qed.

Lemma insufficient_funds_rejected_witness :
  (exists e, InsufficientFunds e /\
     call (withdraw_funds (mkDatabase None true)
             (mkWithdrawalRequest 0%nat 1000001 None)) funded = (Raise e, funded)) /\
  (exists e, InsufficientFunds e /\
     call (execute_transfer (mkDatabase None true)
             (mkTransferRequest 0%nat 1%nat 1000001 None)) funded = (Raise e, funded)).
Proof.
  apply (insufficient_funds_rejected (mkDatabase None true) funded 0%nat 1%nat
           1000001 None); [ lia | reflexivity | vm_compute; reflexivity ].
Defined.

(** C2.  For every account of every store, reachable or not, the balance
    that [get_account_details] returns is the sum of the amounts of the
    account's CREDIT entries minus the sum of the amounts of its DEBIT
    entries, and it is 0 when the account has no entry. *)
Theorem balance_is_credits_minus_debits (s : Store) (acc : Account) :
  In acc (accounts s) ->
  exists r,
    call (get_account_details (acc_id acc)) s = (Return r, s) /\
    ar_balance r = sum_of CREDIT (acc_id acc) s - sum_of DEBIT (acc_id acc) s /\
    (entries_on (acc_id acc) (ledger_entries s) = [] -> ar_balance r = 0).
Proof.
  intros Hin.
  destruct (has_account_first s (acc_id acc) (In_has_account s acc Hin))
    as [first Hfirst].
  exists (mkAccountResponse (acc_id first) (acc_user_id first)
            (acc_account_type first) (acc_currency first) (acc_status first)
            (balance_query (acc_id acc) s)).
  split; [ | split ].
  - destruct s as [accs txs es n]. unfold_handlers. cbn. rewrite Hfirst. reflexivity.
  - cbn. apply balance_query_Balance.
  - cbn. intros Hnone. rewrite balance_query_total, Hnone. reflexivity.
Qed.

Lemma balance_is_credits_minus_debits_witness :
  exists r,
    call (get_account_details 0%nat) funded = (Return r, funded) /\
    ar_balance r = sum_of CREDIT 0%nat funded - sum_of DEBIT 0%nat funded /\
    (entries_on 0%nat (ledger_entries funded) = [] -> ar_balance r = 0).
Proof.
  apply (balance_is_credits_minus_debits funded
           (mkAccount 0%nat "sender_001" "checking" "USD" "ACTIVE")).
  vm_compute. left. reflexivity.
Defined.




(** C4.  [deposit_funds] never looks the account up.  On the empty store a
    deposit of 50 on the account key 7 is refused by an engine that checks
    foreign keys, with an [IntegrityError] that no handler turns into a 404,
    and is committed by an engine that does not check them; and no deposit,
    on any store, is answered with 404. *)
Theorem deposit_unknown_account :
  call (deposit_funds checked_db (mkDepositRequest 7%nat 500000 (Some "Cash Deposit")))
    empty_store
  = (Raise (IntegrityError "violates foreign key constraint"),
     mkStore [] [] [] 2%nat) /\
  call (deposit_funds unchecked_db (mkDepositRequest 7%nat 500000 (Some "Cash Deposit")))
    empty_store
  = (Return [("message", JString "Deposit successful")],
     mkStore [] [mkTransaction 0%nat "DEPOSIT" "COMPLETED"]
       [mkLedgerEntry 1%nat 7%nat 0%nat CREDIT 500000] 2%nat) /\
  (forall D s d, is_NotFound (fst (call (deposit_funds D d) s)) = false).
Proof.
  split; [ reflexivity | split; [ reflexivity | ] ].
  intros D [accs txs es n] d. run_handler; reflexivity.
Qed.

(** C5.  A deposit, a withdrawal or a transfer whose amount is zero or
    negative fails with 400 and leaves the store as it was: nothing is
    created, in any table. *)
Theorem non_positive_amount_rejected
    (D : Database) (s : Store) (a dst : uuid) (amt : Z) (desc : option string) :
  amt <= 0 ->
  (exists e, ValidationError e /\
     call (deposit_funds D (mkDepositRequest a amt desc)) s = (Raise e, s)) /\
  (exists e, ValidationError e /\
     call (withdraw_funds D (mkWithdrawalRequest a amt desc)) s = (Raise e, s)) /\
  (exists e, ValidationError e /\
     call (execute_transfer D (mkTransferRequest a dst amt desc)) s = (Raise e, s)).
Proof.
  intros Hamt. apply Z.leb_le in Hamt.
  destruct s as [accs txs es n].
  repeat split.
  - exists (HTTPException 400 "Amount must be positive").
    split; [ now exists "Amount must be positive" | ].
    unfold_handlers. cbn. now rewrite Hamt.
  - exists (HTTPException 400 "Amount must be positive").
    split; [ now exists "Amount must be positive" | ].
    unfold_handlers. cbn. now rewrite Hamt.
  - exists (HTTPException 400 "Transfer amount must be positive").
    split; [ now exists "Transfer amount must be positive" | ].
    unfold_handlers. cbn. now rewrite Hamt.
Qed.

Lemma non_positive_amount_rejected_witness :
  (exists e, ValidationError e /\
     call (deposit_funds (mkDatabase None false) (mkDepositRequest 0%nat 0 None))
       funded = (Raise e, funded)) /\
  (exists e, ValidationError e /\
     call (withdraw_funds (mkDatabase None false) (mkWithdrawalRequest 0%nat 0 None))
       funded = (Raise e, funded)) /\
  (exists e, ValidationError e /\
     call (execute_transfer (mkDatabase None false)
             (mkTransferRequest 0%nat 1%nat 0 None))
       funded = (Raise e, funded)).
Proof.
  apply (non_positive_amount_rejected (mkDatabase None false) funded 0%nat 1%nat
           0 None); lia.
Defined.

(** A transaction key with an odd group is a row of the parity query. *)
Lemma odd_group_reported (s : Store) (t : uuid) :
  Nat.odd (group_count t s) = true -> In t (transfer_integrity_query s).
Proof.
  intros Hodd. unfold transfer_integrity_query. apply filter_In. split.
  - apply nodup_In.
    unfold group_count in Hodd.
    destruct (filter (fun e => Nat.eqb (transaction_id e) t) (ledger_entries s))
      as [| e l] eqn:E; [ discriminate | ].
    assert (He : In e (e :: l)) by now left.
    rewrite <- E in He. apply filter_In in He. destruct He as [He Ht].
    apply Nat.eqb_eq in Ht. subst t. now apply in_map.
  - apply Nat.odd_spec in Hodd. destruct Hodd as [m Hm].
    apply negb_true_iff, Nat.eqb_neq.
    rewrite Hm, Nat.add_comm, Nat.mul_comm, Nat.Div0.mod_add. discriminate.
Qed.

Lemma integrity_check_compromised (s : Store) (t : uuid) :
  In t (transfer_integrity_query s) ->
  exists rep,
    call integrity_check s = (Return rep, s) /\
    (1 <= unbalanced_transactions_count rep)%nat /\
    status rep = "Integrity Compromised".
Proof.
  intros Hin. destruct s as [accs txs es n]. unfold_handlers. cbn.
  destruct (transfer_integrity_query _) as [| t' l]; [ contradiction | ].
  eexists. split; [ reflexivity | ]. cbn. split; [ lia | reflexivity ].
Qed.

(** C6.  When some transaction key groups an odd number of ledger entries,
    the integrity check counts at least one unbalanced transaction and its
    status is Integrity Compromised.  In particular this is so in every
    reachable store that holds a DEPOSIT or a WITHDRAWAL transaction. *)
Theorem odd_group_compromises (D : Database) (s : Store) :
  (exists t, Nat.odd (group_count t s) = true) \/
  (reachable D s /\
   exists tx, In tx (transactions s) /\
              (tx_type tx = "DEPOSIT" \/ tx_type tx = "WITHDRAWAL")) ->
  exists rep,
    call integrity_check s = (Return rep, s) /\
    (1 <= unbalanced_transactions_count rep)%nat /\
    status rep = "Integrity Compromised".
Proof.
  intros [[t Hodd] | [Hreach [tx [Hin Hty]]]].
  - apply (integrity_check_compromised s t). now apply odd_group_reported.
  - apply (integrity_check_compromised s (tx_id tx)). apply odd_group_reported.
    pose proof (tx_booked s (reachable_consistent D s Hreach) tx Hin) as Hb.
    unfold group_count. fold (entries_of (tx_id tx) s).
    destruct Hb as [e Ht He _ | e Ht He _ | d c Ht _ _ _ _].
    + now rewrite He.
    + now rewrite He.
    + destruct Hty as [Hty | Hty]; rewrite Hty in Ht; discriminate.
Qed.

Lemma odd_group_compromises_witness :
  exists rep,
    call integrity_check funded = (Return rep, funded) /\
    (1 <= unbalanced_transactions_count rep)%nat /\
    status rep = "Integrity Compromised".
Proof.
  apply (odd_group_compromises checked_db funded).
  left. exists 2%nat. vm_compute. reflexivity.
Defined.

(** C7.  On a store without ledger entries the integrity check returns a
    liquidity of 0.0, no unbalanced transaction and the status Healthy. *)
Theorem integrity_check_no_entries (s : Store) :
  ledger_entries s = [] ->
  call integrity_check s
  = (Return (mkIntegrityReport (S754_zero false) 0%nat "Healthy"), s).
Proof.
  intros Hnone. destruct s as [accs txs es n]. cbn in Hnone. subst es.
  reflexivity.
Qed.

Lemma integrity_check_no_entries_witness :
  call integrity_check
    (mkStore [mkAccount 0%nat "sender_001" "checking" "USD" "ACTIVE"] [] [] 1%nat)
  = (Return (mkIntegrityReport (S754_zero false) 0%nat "Healthy"),
     mkStore [mkAccount 0%nat "sender_001" "checking" "USD" "ACTIVE"] [] [] 1%nat).
Proof.
  apply (integrity_check_no_entries
           (mkStore [mkAccount 0%nat "sender_001" "checking" "USD" "ACTIVE"]
              [] [] 1%nat)).
  reflexivity.
Defined.







Lemma commit_keeps_transactions (s s' : Store) :
  commit s s' -> exists new, transactions s' = transactions s ++ new.
Proof.
  intros [n _ | u t c | a amt _ | a amt _ _ | src dst amt _ _]; cbn;
    first [ exists []; now rewrite app_nil_r | eexists; reflexivity ].
Qed.

(** C10.  In every reachable store every transaction row has the status
    COMPLETED, so the column default PENDING is never stored; and a request
    leaves the transaction rows it finds as they are, adding rows at most. *)
Theorem transactions_completed (D : Database) (s : Store) :
  reachable D s ->
  (forall tx, In tx (transactions s) ->
     tx_status tx = "COMPLETED" /\ tx_status tx <> "PENDING") /\
  (forall r, exists new, transactions (step D s r) = transactions s ++ new).
Proof.
  intros Hreach. split.
  - intros tx Hin.
    rewrite (tx_completed s (reachable_consistent D s Hreach) tx Hin).
    split; [ reflexivity | discriminate ].
  - intros r. apply commit_keeps_transactions, step_commit.
Qed.

Lemma transactions_completed_witness :
  (forall tx, In tx (transactions funded) ->
     tx_status tx = "COMPLETED" /\ tx_status tx <> "PENDING") /\
  (forall r, exists new,
     transactions (step checked_db funded r) = transactions funded ++ new).
Proof.
  apply (transactions_completed checked_db funded). exact reachable_funded.
Defined.

(** ** Keys and references *)

Lemma step_posting (D : Database) (s : Store) (r : Request) :
  posting D s (step D s r).
Proof.
  destruct s as [accs txs es n], r as [a | d | w | t]; unfold step;
    run_handler;
    repeat match goal with
           | H : (_ <=? _) = false |- _ => apply Z.leb_gt in H
           | H : (_ <? _) = false |- _ => apply Z.ltb_ge in H
           | H : query_Account_first _ _ = Some _ |- _ =>
               apply find_some in H; destruct H as [? ?]
           end;
    first [ apply (posting_nothing D (mkStore accs txs es n)); cbn; lia
          | apply (posting_account D (mkStore accs txs es n))
          | apply (posting_deposit D (mkStore accs txs es n)); cbn
          | apply (posting_withdrawal D (mkStore accs txs es n)); cbn
          | apply (posting_transfer D (mkStore accs txs es n)); cbn ];
    try assumption; try congruence;
    try (unfold has_account; cbn; apply existsb_exists; eauto).
Qed.

Lemma NoDup_snoc_fresh (l : list nat) (n : nat) :
  NoDup l -> (forall x, In x l -> (x < n)%nat) -> NoDup (l ++ [n]).
Proof.
  intros Hnd Hlt. apply NoDup_app; [ exact Hnd | repeat constructor; auto | ].
  intros x Hx [E | []]. specialize (Hlt x Hx). lia.
Qed.

Lemma NoDup_snoc2_fresh (l : list nat) (n : nat) :
  NoDup l -> (forall x, In x l -> (x < n)%nat) -> NoDup (l ++ [n; S n]).
Proof.
  intros Hnd Hlt. apply NoDup_app; [ exact Hnd | | ].
  - constructor; [ intros [H | []]; lia | repeat constructor; auto ].
  - intros x Hx [E | [E | []]]; specialize (Hlt x Hx); lia.
Qed.

Lemma map_bound {A} (f : A -> nat) (l : list A) (n : nat) :
  (forall a, In a l -> (f a < n)%nat) -> forall x, In x (map f l) -> (x < n)%nat.
Proof. intros H x Hx. apply in_map_iff in Hx. destruct Hx as [a [<- Ha]]. auto. Qed.

(** Case analysis of the membership in a table that grew at its end. *)
Ltac in_grown :=
  repeat match goal with
         | H : In _ (_ ++ _) |- _ => apply in_app_or in H; destruct H as [H | H]
         | H : In _ (_ :: _) |- _ => destruct H as [H | H]
         | H : In _ [] |- _ => destruct H
         end.

Lemma intact_empty (D : Database) : intact D empty_store.
Proof. split; cbn; intros; try contradiction; constructor. Qed.

Lemma posting_intact (D : Database) (s s' : Store) :
  intact D s -> posting D s s' -> intact D s'.
Proof.
  intros [Ka Kt Ke Na Nt Ne Rt Rd Ra Pa] Hstep.
  destruct s as [accs txs es k]. unfold has_account, has_transaction in *. cbn in *.
  destruct Hstep as [n Hn | u t c | a amt Hamt Hacc | a amt Hamt Hbal Hacc
                    | src dst amt Hamt Hbal Hsrc Hdst];
    unfold has_account in *; cbn in *.
  - split; cbn; unfold has_account, has_transaction; cbn; auto; intros.
    + specialize (Ka _ H). lia.
    + specialize (Kt _ H). lia.
    + specialize (Ke _ H). lia.
  - split; cbn; unfold has_account, has_transaction; cbn; auto; intros.
    + in_grown; [ specialize (Ka _ H); lia | subst; cbn; lia ].
    + specialize (Kt _ H). lia.
    + specialize (Ke _ H). lia.
    + rewrite map_app. cbn. apply NoDup_snoc_fresh; [ exact Na | ].
      now apply map_bound.
    + rewrite existsb_app, (Rd _ H H0). reflexivity.
    + rewrite existsb_app, (Ra H _ H0). reflexivity.
  - split; cbn; unfold has_account, has_transaction; cbn; auto; intros.
    + specialize (Ka _ H). lia.
    + in_grown; [ specialize (Kt _ H); lia | subst; cbn; lia ].
    + in_grown; [ specialize (Ke _ H); lia | subst; cbn; lia ].
    + rewrite map_app. cbn. apply NoDup_snoc_fresh; [ exact Nt | ].
      now apply map_bound.
    + rewrite map_app. cbn. apply NoDup_snoc_fresh; [ exact Ne | ].
      intros x Hx. apply (map_bound entry_id es k Ke) in Hx. lia.
    + rewrite existsb_app. in_grown.
      * now rewrite (Rt _ H).
      * subst e. cbn. now rewrite Nat.eqb_refl, orb_true_r.
    + in_grown; [ auto | subst e; discriminate ].
    + in_grown; [ auto | subst e; cbn; auto ].
    + in_grown; [ auto | subst e; assumption ].
  - split; cbn; unfold has_account, has_transaction; cbn; auto; intros.
    + specialize (Ka _ H). lia.
    + in_grown; [ specialize (Kt _ H); lia | subst; cbn; lia ].
    + in_grown; [ specialize (Ke _ H); lia | subst; cbn; lia ].
    + rewrite map_app. cbn. apply NoDup_snoc_fresh; [ exact Nt | ].
      now apply map_bound.
    + rewrite map_app. cbn. apply NoDup_snoc_fresh; [ exact Ne | ].
      intros x Hx. apply (map_bound entry_id es k Ke) in Hx. lia.
    + rewrite existsb_app. in_grown.
      * now rewrite (Rt _ H).
      * subst e. cbn. now rewrite Nat.eqb_refl, orb_true_r.
    + in_grown; [ auto | subst e; assumption ].
    + in_grown; [ auto | subst e; assumption ].
    + in_grown; [ auto | subst e; assumption ].
  - split; cbn; unfold has_account, has_transaction; cbn; auto; intros.
    + specialize (Ka _ H). lia.
    + in_grown; [ specialize (Kt _ H); lia | subst; cbn; lia ].
    + in_grown; [ specialize (Ke _ H); lia | subst; cbn; lia | subst; cbn; lia ].
    + rewrite map_app. cbn. apply NoDup_snoc_fresh; [ exact Nt | ].
      now apply map_bound.
    + rewrite map_app. cbn.
      assert (Hb : forall x, In x (map entry_id es) -> (x < S k)%nat).
      { intros x Hx. apply (map_bound entry_id es k Ke) in Hx. lia. }
      apply NoDup_snoc2_fresh; assumption.
    + rewrite existsb_app. in_grown.
      * now rewrite (Rt _ H).
      * subst e. cbn. now rewrite Nat.eqb_refl, orb_true_r.
      * subst e. cbn. now rewrite Nat.eqb_refl, orb_true_r.
    + in_grown; [ auto | subst e; assumption | subst e; discriminate ].
    + in_grown; [ auto | subst e; assumption | subst e; cbn; auto ].
    + in_grown; [ auto | subst e; assumption | subst e; assumption ].
Qed.

Lemma reachable_intact (D : Database) (s : Store) :
  reachable D s -> intact D s.
Proof.
  intros [rs ->]. induction rs as [| r rs IH] using rev_ind.
  - apply intact_empty.
  - rewrite run_snoc. eapply posting_intact; [ exact IH | apply step_posting ].
Qed.

(** ** Effects of single requests *)

Lemma net_liquidity_total (s : Store) :
  net_liquidity s = total (map case_amount (ledger_entries s)).
Proof.
  unfold net_liquidity, query, sql_sum, or_0.
  destruct (map case_amount (ledger_entries s)) as [| x xs]; [ reflexivity | ].
  fold (total (x :: xs)).
  destruct (Z.eqb_spec (total (x :: xs)) 0) as [E | _];
    [ now rewrite E | reflexivity ].
Qed.


Lemma no_account_first (s : Store) (a : uuid) :
  has_account s a = false -> query_Account_first a s = None.
Proof.
  unfold has_account, query_Account_first.
  induction (accounts s) as [| x l IH]; cbn; [ reflexivity | ].
  destruct (Nat.eqb (acc_id x) a); cbn; [ discriminate | exact IH ].
Qed.

(** X1.  [get_account_details] answers 404 exactly for the keys of no account
    row; for the key of a row it returns a response with that key.  The
    store is the same in both cases. *)
Theorem get_account_details_found_or_404 (s : Store) (id : uuid) :
  (has_account s id = false /\
   call (get_account_details id) s
   = (Raise (HTTPException 404 "Account not found"), s)) \/
  (has_account s id = true /\
   exists r, call (get_account_details id) s = (Return r, s) /\ ar_id r = id).
Proof.
  destruct (has_account s id) eqn:Hacc; [ right | left ]; split; try reflexivity.
  - destruct (has_account_first s id Hacc) as [acc Hfirst].
    pose proof Hfirst as Hkey. unfold query_Account_first in Hkey.
    apply find_some in Hkey. destruct Hkey as [_ Hkey]. apply Nat.eqb_eq in Hkey.
    destruct s as [accs txs es n]. unfold_handlers. cbn. rewrite Hfirst. cbn.
    eexists. split; [ reflexivity | exact Hkey ].
  - pose proof (no_account_first s id Hacc) as Hnone.
    destruct s as [accs txs es n]. unfold_handlers. cbn. now rewrite Hnone.
Qed.

(** X2.  A withdrawal, or a transfer, of a positive amount from a key of no
    account row is answered 404 and leaves the store as it was. *)
Theorem unknown_source_is_404
    (D : Database) (s : Store) (a dst : uuid) (amt : Z) (desc : option string) :
  0 < amt ->
  has_account s a = false ->
  call (withdraw_funds D (mkWithdrawalRequest a amt desc)) s
  = (Raise (HTTPException 404 "Account not found"), s) /\
  call (execute_transfer D (mkTransferRequest a dst amt desc)) s
  = (Raise (HTTPException 404 "Source account not found"), s).
Proof.
  intros Hpos Hacc. apply Z.leb_gt in Hpos.
  pose proof (no_account_first s a Hacc) as Hnone.
  destruct s as [accs txs es n].
  split; unfold_handlers; cbn; rewrite Hpos; cbn; rewrite Hnone; reflexivity.
Qed.

Lemma unknown_source_is_404_witness :
  call (withdraw_funds checked_db (mkWithdrawalRequest 9%nat 10000 None)) funded
  = (Raise (HTTPException 404 "Account not found"), funded) /\
  call (execute_transfer checked_db (mkTransferRequest 9%nat 0%nat 10000 None)) funded
  = (Raise (HTTPException 404 "Source account not found"), funded).
Proof.
  apply (unknown_source_is_404 checked_db funded 9%nat 0%nat 10000 None);
    [ lia | reflexivity ].
Defined.











(** X8.  Whatever the request, the store and the database, [withdraw_funds] and
    [execute_transfer] answer with a success or with an [HTTPException] of
    status 400, 404, 422 or 500: the [except] clause lets nothing else
    out. *)
Theorem only_http_exceptions
    (D : Database) (s : Store) (w : WithdrawalRequest) (t : TransferRequest) :
  answers_http (fst (call (withdraw_funds D w) s)) = true /\
  answers_http (fst (call (execute_transfer D t) s)) = true.
Proof.
  destruct s as [accs txs es n]. split; run_handler; reflexivity.
Qed.

(** X9.  A request that is answered with an exception leaves the three tables
    as they were, for each of the four [POST] handlers. *)
Theorem failure_changes_no_table
    (D : Database) (s : Store) (a : AccountCreate) (d : DepositRequest)
    (w : WithdrawalRequest) (t : TransferRequest) :
  (succeeded (fst (call (create_new_account a) s)) = true \/
   same_tables s (snd (call (create_new_account a) s))) /\
  (succeeded (fst (call (deposit_funds D d) s)) = true \/
   same_tables s (snd (call (deposit_funds D d) s))) /\
  (succeeded (fst (call (withdraw_funds D w) s)) = true \/
   same_tables s (snd (call (withdraw_funds D w) s))) /\
  (succeeded (fst (call (execute_transfer D t) s)) = true \/
   same_tables s (snd (call (execute_transfer D t) s))).
Proof.
  destruct s as [accs txs es n]. unfold same_tables.
  repeat split; run_handler; (left; reflexivity) || (right; repeat split).
Qed.

Lemma commit_keeps_rows (s s' : Store) :
  commit s s' ->
  (exists new, accounts s' = accounts s ++ new) /\
  (exists new, ledger_entries s' = ledger_entries s ++ new) /\
  (uuid4_drawn s <= uuid4_drawn s')%nat.
Proof.
  intros [n Hn | u t c | a amt _ | a amt _ _ | src dst amt _ _]; cbn;
    (split; [ | split ]);
    first [ lia | exists []; now rewrite app_nil_r | eexists; reflexivity ].
Qed.

(** X10.  Every request keeps the account rows and the ledger entries it finds,
    in their order, and adds rows at the end at most; the count of the keys
    drawn never goes down. *)
Theorem rows_are_kept (D : Database) (s : Store) (r : Request) :
  (exists new, accounts (step D s r) = accounts s ++ new) /\
  (exists new, ledger_entries (step D s r) = ledger_entries s ++ new) /\
  (uuid4_drawn s <= uuid4_drawn (step D s r))%nat.
Proof. apply commit_keeps_rows, step_commit. Qed.

(** ** Properties of the reachable stores *)

Lemma get_account_details_returns (s : Store) (id : uuid) (acc : Account) :
  query_Account_first id s = Some acc ->
  call (get_account_details id) s
  = (Return (mkAccountResponse (acc_id acc) (acc_user_id acc) (acc_account_type acc)
               (acc_currency acc) (acc_status acc) (balance_query id s)), s).
Proof.
  intros Hfirst. destruct s as [accs txs es n]. unfold_handlers. cbn.
  rewrite Hfirst. reflexivity.
Qed.

(** X11.  In every reachable store the balance that [get_account_details]
    returns for an account is not negative. *)
Theorem balance_never_negative (D : Database) (s : Store) (acc : Account) :
  reachable D s ->
  In acc (accounts s) ->
  exists r,
    call (get_account_details (acc_id acc)) s = (Return r, s) /\ 0 <= ar_balance r.
Proof.
  intros Hreach Hin.
  destruct (has_account_first s (acc_id acc) (In_has_account s acc Hin))
    as [first Hfirst].
  eexists. split; [ apply (get_account_details_returns s _ first Hfirst) | ].
  cbn. apply (no_overdraft s (reachable_consistent D s Hreach)).
Qed.

Lemma balance_never_negative_witness :
  exists r,
    call (get_account_details 1%nat) funded = (Return r, funded) /\
    0 <= ar_balance r.
Proof.
  apply (balance_never_negative checked_db funded
           (mkAccount 1%nat "receiver_001" "savings" "USD" "ACTIVE")).
  - exact reachable_funded.
  - vm_compute. right. left. reflexivity.
Defined.



(** X13.  In every reachable store every ledger entry names a transaction row and
    every DEBIT entry is on an account row, whatever the engine; with an
    engine that checks foreign keys every entry is on an account row. *)
Theorem entries_refer_to_rows (D : Database) (s : Store) (e : LedgerEntry) :
  reachable D s ->
  In e (ledger_entries s) ->
  has_transaction s (transaction_id e) = true /\
  (entry_type e = DEBIT -> has_account s (account_id e) = true) /\
  (db_foreign_keys D <> None -> has_account s (account_id e) = true).
Proof.
  intros Hreach Hin. pose proof (reachable_intact D s Hreach) as I.
  split; [ | split ].
  - now apply (intact_entry_transaction D s I).
  - now apply (intact_debit_account D s I).
  - intros Hfk. now apply (intact_entry_account D s I Hfk).
Qed.

Lemma entries_refer_to_rows_witness :
  has_transaction after_self_transfer 3%nat = true /\
  (DEBIT = DEBIT -> has_account after_self_transfer 0%nat = true) /\
  (db_foreign_keys checked_db <> None -> has_account after_self_transfer 0%nat = true).
Proof.
  apply (entries_refer_to_rows checked_db after_self_transfer
           (mkLedgerEntry 4%nat 0%nat 3%nat DEBIT 10000)).
  - exact reachable_after_self_transfer.
  - vm_compute. right. left. reflexivity.
Defined.

(** ** The parity query on the reachable stores *)

Lemma nodup_app_disjoint (l new : list nat) :
  (forall x, In x l -> ~ In x new) ->
  nodup Nat.eq_dec (l ++ new) = nodup Nat.eq_dec l ++ nodup Nat.eq_dec new.
Proof.
  induction l as [| a l IH]; cbn; intros H; [ reflexivity | ].
  assert (IH' : nodup Nat.eq_dec (l ++ new)
                = nodup Nat.eq_dec l ++ nodup Nat.eq_dec new).
  { apply IH. intros x Hx. apply H. now right. }
  destruct (in_dec Nat.eq_dec a (l ++ new)) as [Hin | Hout];
    destruct (in_dec Nat.eq_dec a l) as [Hl | Hl].
  - exact IH'.
  - apply in_app_or in Hin. destruct Hin as [Hin | Hin]; [ contradiction | ].
    exfalso. apply (H a); [ now left | exact Hin ].
  - exfalso. apply Hout, in_or_app. now left.
  - cbn. now rewrite IH'.
Qed.

Lemma nodup_constant (l : list nat) (n : nat) :
  l <> [] -> (forall x, In x l -> x = n) -> nodup Nat.eq_dec l = [n].
Proof.
  induction l as [| a l IH]; [ contradiction | ]. intros _ H.
  change (nodup Nat.eq_dec (a :: l))
    with (if in_dec Nat.eq_dec a l
          then nodup Nat.eq_dec l else a :: nodup Nat.eq_dec l).
  destruct (in_dec Nat.eq_dec a l) as [Hin | Hout].
  - apply IH; [ intros ->; destruct Hin | intros x Hx; apply H; now right ].
  - destruct l as [| b l].
    + cbn. f_equal. apply H. now left.
    + exfalso. apply Hout. left.
      rewrite (H a (or_introl eq_refl)). apply H. right. now left.
Qed.

Lemma odd_mod_2 (m : nat) : negb (Nat.eqb (m mod 2) 0) = Nat.odd m.
Proof.
  destruct (Nat.odd m) eqn:E.
  - apply Nat.odd_spec in E. destruct E as [k ->].
    now rewrite Nat.add_comm, Nat.mul_comm, Nat.Div0.mod_add.
  - rewrite <- Nat.negb_even in E. apply negb_false_iff, Nat.even_spec in E.
    destruct E as [k ->]. now rewrite Nat.mul_comm, Nat.Div0.mod_mul.
Qed.

Lemma group_count_entries_of (t : uuid) (s : Store) :
  group_count t s = List.length (entries_of t s).
Proof. reflexivity. Qed.

(** The rows of the parity query after entries were booked under a key
    drawn later than every key in the table. *)
Lemma parity_query_grown accs accs' txs txs' es new k k' (n : uuid) :
  (forall e, In e es -> (transaction_id e < n)%nat) ->
  (forall e, In e new -> transaction_id e = n) ->
  new <> [] ->
  transfer_integrity_query (mkStore accs' txs' (es ++ new) k')
  = transfer_integrity_query (mkStore accs txs es k)
    ++ (if Nat.odd (List.length new) then [n] else []).
Proof.
  intros Hold Hnew Hne. unfold transfer_integrity_query.
  cbn [ledger_entries]. rewrite map_app, nodup_app_disjoint.
  - rewrite filter_app. f_equal.
    + apply filter_ext_in. intros t Ht. apply nodup_In, in_map_iff in Ht.
      destruct Ht as [e [<- He]]. rewrite !group_count_entries_of.
      now rewrite (entries_of_old (transaction_id e) n accs accs' txs txs' es new k k'
                     (Hold e He) Hnew).
    + assert (E : nodup Nat.eq_dec (map transaction_id new) = [n]).
      { apply nodup_constant.
        - destruct new; [ contradiction | discriminate ].
        - intros x Hx. apply in_map_iff in Hx. destruct Hx as [e [<- He]]. auto. }
      rewrite E. cbn [filter]. rewrite group_count_entries_of.
      rewrite (entries_of_new n accs' txs' es new k' Hold Hnew).
      rewrite odd_mod_2. reflexivity.
  - intros x Hx Hx'. apply in_map_iff in Hx. destruct Hx as [e [<- He]].
    apply in_map_iff in Hx'. destruct Hx' as [e' [E He']].
    rewrite (Hnew e' He') in E. specialize (Hold e He). lia.
Qed.

Lemma commit_parity (s s' : Store) :
  consistent s -> commit s s' ->
  transfer_integrity_query s = map tx_id (filter single_entry (transactions s)) ->
  transfer_integrity_query s'
  = map tx_id (filter single_entry (transactions s')).
Proof.
  intros [_ He _ _ _] Hstep IH. destruct s as [accs txs es k]. cbn in *.
  destruct Hstep as [n Hn | u t c | a amt _ | a amt _ _ | src dst amt _ _];
    cbn [accounts transactions ledger_entries uuid4_drawn];
    try exact IH;
    rewrite (parity_query_grown accs accs txs _ es _ k _ k He);
    try (intros e [<- | [<- | []]]; reflexivity);
    try (intros e [<- | []]; reflexivity);
    try discriminate;
    rewrite IH, filter_app, map_app; reflexivity.
Qed.

Lemma reachable_parity (D : Database) (s : Store) :
  reachable D s ->
  transfer_integrity_query s = map tx_id (filter single_entry (transactions s)).
Proof.
  intros [rs ->]. induction rs as [| r rs IH] using rev_ind; [ reflexivity | ].
  rewrite run_snoc. eapply commit_parity; [ | apply step_commit | exact IH ].
  apply (reachable_consistent D). now exists rs.
Qed.

(** X14.  In every reachable store the integrity check counts exactly the DEPOSIT
    and WITHDRAWAL transactions as unbalanced, and its status is Healthy
    exactly when every transaction of the store is a TRANSFER. *)
Theorem unbalanced_are_the_single_entries (D : Database) (s : Store) :
  reachable D s ->
  exists rep,
    call integrity_check s = (Return rep, s) /\
    unbalanced_transactions_count rep
    = List.length (filter single_entry (transactions s)) /\
    (status rep = "Healthy" <->
     forall tx, In tx (transactions s) -> tx_type tx = "TRANSFER").
Proof.
  intros Hreach.
  pose proof (reachable_parity D s Hreach) as Hq.
  pose proof (tx_booked s (reachable_consistent D s Hreach)) as Hb.
  destruct s as [accs txs es n]. unfold_handlers. cbn in *.
  eexists. split; [ reflexivity | ]. cbn. rewrite Hq, length_map.
  split; [ reflexivity | ].
  destruct (filter single_entry txs) as [| tx0 l] eqn:E; cbn; split.
  - intros _ tx Hin.
    destruct (Hb tx Hin) as [e Ht _ _ | e Ht _ _ | d c Ht _ _ _ _]; [ | | exact Ht ];
      exfalso;
      assert (Hf : In tx (filter single_entry txs))
        by (apply filter_In; split; [ exact Hin | unfold single_entry; now rewrite Ht ]);
      rewrite E in Hf; destruct Hf.
  - reflexivity.
  - discriminate.
  - intros Hall. exfalso.
    assert (Hf : In tx0 (filter single_entry txs)) by (rewrite E; now left).
    apply filter_In in Hf. destruct Hf as [Hin Hs].
    unfold single_entry in Hs. rewrite (Hall tx0 Hin) in Hs. discriminate.
Qed.

Lemma unbalanced_are_the_single_entries_witness :
  exists rep,
    call integrity_check after_self_transfer = (Return rep, after_self_transfer) /\
    unbalanced_transactions_count rep
    = List.length (filter single_entry (transactions after_self_transfer)) /\
    (status rep = "Healthy" <->
     forall tx, In tx (transactions after_self_transfer) -> tx_type tx = "TRANSFER").
Proof.
  apply (unbalanced_are_the_single_entries checked_db after_self_transfer).
  exact reachable_after_self_transfer.
Defined.

(** ** The net liquidity and the balances *)

Lemma total_filter_or {A} (f : A -> Z) (p q : A -> bool) (l : list A) :
  (forall x, In x l -> p x = true -> q x = false) ->
  total (map f (filter (fun x => p x || q x) l))
  = total (map f (filter p l)) + total (map f (filter q l)).
Proof.
  induction l as [| x l IH]; intros H; [ reflexivity | ].
  assert (IH' := IH (fun y Hy => H y (or_intror Hy))).
  cbn [filter]. destruct (p x) eqn:Hp; cbn [orb].
  - rewrite (H x (or_introl eq_refl) Hp). cbn [map]. unfold total in *. cbn. lia.
  - destruct (q x); cbn [map]; unfold total in *; cbn; lia.
Qed.

Lemma filter_all {A} (f : A -> bool) (l : list A) :
  (forall x, In x l -> f x = true) -> filter f l = l.
Proof.
  induction l as [| x l IH]; intros H; [ reflexivity | ].
  cbn. rewrite (H x (or_introl eq_refl)). f_equal. apply IH. intros y Hy.
  apply H. now right.
Qed.

(** The balances of distinct keys add up to the signed sum of the entries
    on those keys. *)
Lemma balances_cover (keys : list uuid) (s : Store) :
  NoDup keys ->
  balances keys s
  = total (map case_amount
             (filter (fun e => existsb (Nat.eqb (account_id e)) keys)
                (ledger_entries s))).
Proof.
  induction keys as [| a keys IH]; intros Hnd.
  - cbn. rewrite (filter_nil_iff _ (ledger_entries s)); [ reflexivity | auto ].
  - inversion Hnd as [| ? ? Hout Hnd']. subst.
    unfold balances in *. cbn [map existsb].
    rewrite total_filter_or.
    + rewrite <- (IH Hnd'), balance_query_total. reflexivity.
    + intros e _ He. apply Nat.eqb_eq in He.
      destruct (existsb (Nat.eqb (account_id e)) keys) eqn:Hex; [ | reflexivity ].
      apply existsb_exists in Hex. destruct Hex as [x [Hx Hxe]].
      apply Nat.eqb_eq in Hxe. exfalso. apply Hout. rewrite <- He, Hxe. exact Hx.
Qed.

Lemma total_nonneg (xs : list Z) : (forall x, In x xs -> 0 <= x) -> 0 <= total xs.
Proof.
  induction xs as [| x xs IH]; intros H; unfold total in *; cbn; [ lia | ].
  specialize (H x (or_introl eq_refl)) as Hx.
  specialize (IH (fun y Hy => H y (or_intror Hy))). lia.
Qed.

Lemma has_account_keys (s : Store) (a : uuid) :
  existsb (Nat.eqb a) (map acc_id (accounts s)) = has_account s a.
Proof.
  unfold has_account. induction (accounts s) as [| x l IH]; [ reflexivity | ].
  cbn. now rewrite IH, Nat.eqb_sym.
Qed.

Lemma integrity_check_returns (s : Store) :
  exists rep,
    call integrity_check s = (Return rep, s) /\
    total_system_liquidity rep = float (net_liquidity s).
Proof.
  destruct s as [accs txs es n]. unfold_handlers. cbn.
  eexists. split; reflexivity.
Qed.

(** X15.  In every reachable store the liquidity that the integrity check
    reports is the float of a decimal that is not negative. *)
Theorem liquidity_never_negative (D : Database) (s : Store) :
  reachable D s ->
  exists rep,
    call integrity_check s = (Return rep, s) /\
    total_system_liquidity rep = float (net_liquidity s) /\
    0 <= net_liquidity s.
Proof.
  intros Hreach. destruct (integrity_check_returns s) as [rep [Hcall Hliq]].
  exists rep. split; [ exact Hcall | split; [ exact Hliq | ] ].
  rewrite net_liquidity_total.
  rewrite <- (filter_all
                (fun e => existsb (Nat.eqb (account_id e))
                            (nodup Nat.eq_dec (map account_id (ledger_entries s))))
                (ledger_entries s)).
  - rewrite <- balances_cover by apply NoDup_nodup.
    apply total_nonneg. intros x Hx. apply in_map_iff in Hx.
    destruct Hx as [a [<- _]].
    apply (no_overdraft s (reachable_consistent D s Hreach)).
  - intros e He. apply existsb_exists. exists (account_id e).
    split; [ now apply nodup_In, in_map | apply Nat.eqb_refl ].
Qed.

Lemma liquidity_never_negative_witness :
  exists rep,
    call integrity_check funded = (Return rep, funded) /\
    total_system_liquidity rep = float (net_liquidity funded) /\
    0 <= net_liquidity funded.
Proof. apply (liquidity_never_negative checked_db funded). exact reachable_funded. Defined.

(** X16.  In every store reachable with an engine that checks foreign keys, the
    liquidity that the integrity check reports is the float of the sum of
    the balances of the account rows. *)
Theorem liquidity_is_the_sum_of_balances (D : Database) (s : Store) :
  reachable D s ->
  db_foreign_keys D <> None ->
  exists rep,
    call integrity_check s = (Return rep, s) /\
    total_system_liquidity rep = float (balances (map acc_id (accounts s)) s).
Proof.
  intros Hreach Hfk. destruct (integrity_check_returns s) as [rep [Hcall Hliq]].
  exists rep. split; [ exact Hcall | ]. rewrite Hliq. f_equal.
  pose proof (reachable_intact D s Hreach) as I.
  rewrite net_liquidity_total, balances_cover by apply (intact_accounts D s I).
  rewrite filter_all; [ reflexivity | ].
  intros e He. rewrite has_account_keys. now apply (intact_entry_account D s I Hfk).
Qed.

Lemma liquidity_is_the_sum_of_balances_witness :
  exists rep,
    call integrity_check after_self_transfer = (Return rep, after_self_transfer) /\
    total_system_liquidity rep
    = float (balances (map acc_id (accounts after_self_transfer)) after_self_transfer).
Proof.
  apply (liquidity_is_the_sum_of_balances checked_db after_self_transfer).
  - exact reachable_after_self_transfer.
  - discriminate.
Defined.

(** ** SQLAlchemy's declarative constructor *)

(** X17.  When the constructor of [Base] refuses the keywords that are not mapped
    attributes, as SQLAlchemy's own does, no deposit, withdrawal or transfer
    ever succeeds, on any store, and no reachable store holds a transaction
    or a ledger entry: [models.Transaction] maps no [description]. *)
Theorem declarative_Base_books_nothing
    (D : Database) (s : Store) (d : DepositRequest) (w : WithdrawalRequest)
    (t : TransferRequest) :
  Base_rejects_unknown_keywords D = true ->
  succeeded (fst (call (deposit_funds D d) s)) = false /\
  succeeded (fst (call (withdraw_funds D w) s)) = false /\
  succeeded (fst (call (execute_transfer D t) s)) = false /\
  (reachable D s -> transactions s = [] /\ ledger_entries s = []).
Proof.
  intros Hbase. split; [ | split; [ | split ] ].
  - destruct s as [accs txs es n]. unfold_handlers; cbn; rewrite ?Hbase;
      repeat (branch; cbn; rewrite ?Hbase; cbn); try reflexivity; discriminate.
  - destruct s as [accs txs es n]. unfold_handlers; cbn; rewrite ?Hbase;
      repeat (branch; cbn; rewrite ?Hbase; cbn); try reflexivity; discriminate.
  - destruct s as [accs txs es n]. unfold_handlers; cbn; rewrite ?Hbase;
      repeat (branch; cbn; rewrite ?Hbase; cbn); try reflexivity; discriminate.
  - intros [rs ->]. induction rs as [| r rs IH] using rev_ind; [ now split | ].
    rewrite run_snoc. destruct IH as [IHt IHe].
    destruct (declarative_Base_commits_nothing D (run D rs empty_store) r Hbase)
      as [Ht He]. now rewrite Ht, He.
Qed.

Lemma declarative_Base_books_nothing_witness :
  succeeded (fst (call (deposit_funds declarative_db
                          (mkDepositRequest 0%nat 1000000 (Some "Test Funding")))
                    funded)) = false /\
  succeeded (fst (call (withdraw_funds declarative_db
                          (mkWithdrawalRequest 0%nat 200000 None)) funded)) = false /\
  succeeded (fst (call (execute_transfer declarative_db
                          (mkTransferRequest 0%nat 1%nat 200000 None)) funded)) = false /\
  (reachable declarative_db funded ->
   transactions funded = [] /\ ledger_entries funded = []).
Proof.
  apply (declarative_Base_books_nothing declarative_db funded
           (mkDepositRequest 0%nat 1000000 (Some "Test Funding"))
           (mkWithdrawalRequest 0%nat 200000 None)
           (mkTransferRequest 0%nat 1%nat 200000 None)).
  reflexivity.
Defined.

(** ** Transfers out of one account, one after the other *)




(** The figures that [run_concurrency_test] expects: 5 transfers answered
    200, 5 answered 422, nothing left on the source, 100 on the
    destination. *)
Example run_concurrency_test_figures :
  count succeeded (fst (transfer_all checked_db ten_transfers funded)) = 5 /\
  count is_InsufficientFunds (fst (transfer_all checked_db ten_transfers funded)) = 5 /\
  balance_query 0%nat (snd (transfer_all checked_db ten_transfers funded)) = 0 /\
  balance_query 1%nat (snd (transfer_all checked_db ten_transfers funded)) = 1000000.
Proof. vm_compute. repeat split. Qed.

(** ** The ledger history *)

Lemma insert_desc_permutation (created_at : uuid -> Z) (e : LedgerEntry)
    (l : list LedgerEntry) :
  Permutation (insert_desc created_at e l) (e :: l).
Proof.
  induction l as [| x l IH]; cbn; [ reflexivity | ].
  destruct (created_at (entry_id x) <=? created_at (entry_id e)); [ reflexivity | ].
  rewrite IH. apply perm_swap.
Qed.

Lemma order_by_permutation (created_at : uuid -> Z) (l : list LedgerEntry) :
  Permutation (order_by_created_at_desc created_at l) l.
Proof.
  induction l as [| e l IH]; cbn; [ reflexivity | ].
  rewrite insert_desc_permutation. now constructor.
Qed.

Lemma insert_desc_sorted (created_at : uuid -> Z) (e : LedgerEntry)
    (l : list LedgerEntry) :
  Sorted (fun x y => created_at (entry_id y) <= created_at (entry_id x)) l ->
  Sorted (fun x y => created_at (entry_id y) <= created_at (entry_id x))
    (insert_desc created_at e l).
Proof.
  induction l as [| x l IH]; cbn; intros Hs; [ repeat constructor | ].
  destruct (Z.leb_spec (created_at (entry_id x)) (created_at (entry_id e))) as [Hle | Hgt].
  - constructor; [ exact Hs | now constructor ].
  - inversion Hs as [| ? ? Hs' Hhd]. subst.
    constructor; [ now apply IH | ].
    destruct l as [| y l]; cbn; [ constructor; lia | ].
    destruct (created_at (entry_id y) <=? created_at (entry_id e));
      constructor; [ lia | now inversion Hhd ].
Qed.

Lemma order_by_sorted (created_at : uuid -> Z) (l : list LedgerEntry) :
  Sorted (fun x y => created_at (entry_id y) <= created_at (entry_id x))
    (order_by_created_at_desc created_at l).
Proof.
  induction l as [| e l IH]; cbn; [ constructor | now apply insert_desc_sorted ].
Qed.

(** X19.  [get_ledger_history] never fails and leaves the store as it is; the
    list it returns holds exactly the ledger entries on the account, each as
    often as the table has it, and no entry comes before a newer one. *)
Theorem ledger_history_is_the_entries_newest_first
    (created_at : uuid -> Z) (s : Store) (id : uuid) :
  exists l,
    call (get_ledger_history created_at id) s = (Return l, s) /\
    Permutation l (entries_on id (ledger_entries s)) /\
    StronglySorted (fun x y => created_at (entry_id y) <= created_at (entry_id x)) l.
Proof.
  destruct s as [accs txs es n]. unfold call, get_ledger_history, bind, db_read, ret.
  cbn [db ledger_entries]. eexists. split; [ reflexivity | split ].
  - apply order_by_permutation.
  - apply Sorted_StronglySorted; [ | apply order_by_sorted ].
    intros x y z Hxy Hyz. lia.
Qed.

(** X20.  In a store reachable with an engine that checks foreign keys, the
    history of a key of no account row is the empty list, where
    [get_account_details] answers 404. *)
Theorem ledger_history_of_unknown_account
    (D : Database) (created_at : uuid -> Z) (s : Store) (id : uuid) :
  reachable D s ->
  db_foreign_keys D <> None ->
  has_account s id = false ->
  call (get_ledger_history created_at id) s = (Return [], s) /\
  call (get_account_details id) s
  = (Raise (HTTPException 404 "Account not found"), s).
Proof.
  intros Hreach Hfk Hacc. pose proof (reachable_intact D s Hreach) as I.
  pose proof (intact_entry_account D s I Hfk) as Href.
  pose proof (no_account_first s id Hacc) as Hnone.
  destruct s as [accs txs es n]. split.
  - unfold call, get_ledger_history, bind, db_read, ret. cbn [db ledger_entries] in *.
    rewrite (filter_nil_iff _ es); [ reflexivity | ].
    intros e He. apply Nat.eqb_neq. intros E. specialize (Href e He).
    rewrite E in Href. congruence.
  - unfold_handlers. cbn. now rewrite Hnone.
Qed.

Lemma ledger_history_of_unknown_account_witness :
  call (get_ledger_history (fun k => Z.of_nat k) 9%nat) funded = (Return [], funded) /\
  call (get_account_details 9%nat) funded
  = (Raise (HTTPException 404 "Account not found"), funded).
Proof.
  apply (ledger_history_of_unknown_account checked_db (fun k => Z.of_nat k) funded 9%nat).
  - exact reachable_funded.
  - discriminate.
  - reflexivity.
Defined.

(** ** Requests that follow one another *)

Lemma find_snoc {A} (f : A -> bool) (l : list A) (x : A) :
  (forall y, In y l -> f y = false) -> f x = true -> find f (l ++ [x]) = Some x.
Proof.
  induction l as [| y l IH]; cbn; intros Hl Hx; [ now rewrite Hx | ].
  rewrite (Hl y (or_introl eq_refl)). apply IH; [ | exact Hx ].
  intros z Hz. apply Hl. now right.
Qed.

(** X21.  In a reachable store [create_new_account] always succeeds: it writes
    one ACTIVE account row under a key that no account had and answers with
    that row and the balance 0.  [get_account_details] on that key then
    finds the row; with an engine that checks foreign keys its answer is the
    very answer of the creation. *)
Theorem created_account_is_found (D : Database) (s : Store) (a : AccountCreate) :
  reachable D s ->
  let r := mkAccountResponse (uuid4_drawn s) (ac_user_id a) (ac_account_type a)
             (ac_currency a) "ACTIVE" 0 in
  let s' := mkStore
              (accounts s ++ [mkAccount (uuid4_drawn s) (ac_user_id a)
                                (ac_account_type a) (ac_currency a) "ACTIVE"])
              (transactions s) (ledger_entries s) (S (uuid4_drawn s)) in
  call (create_new_account a) s = (Return r, s') /\
  has_account s (ar_id r) = false /\
  call (get_account_details (ar_id r)) s'
  = (Return (mkAccountResponse (uuid4_drawn s) (ac_user_id a) (ac_account_type a)
               (ac_currency a) "ACTIVE" (balance_query (uuid4_drawn s) s)), s') /\
  (db_foreign_keys D <> None ->
   call (get_account_details (ar_id r)) s' = (Return r, s')).
Proof.
  intros Hreach r s'. pose proof (reachable_intact D s Hreach) as I.
  assert (Hfresh : forall y, In y (accounts s) ->
                             Nat.eqb (acc_id y) (uuid4_drawn s) = false).
  { intros y Hy. apply Nat.eqb_neq. pose proof (intact_account_key D s I y Hy). lia. }
  assert (Hget : call (get_account_details (uuid4_drawn s)) s'
                 = (Return (mkAccountResponse (uuid4_drawn s) (ac_user_id a)
                              (ac_account_type a) (ac_currency a) "ACTIVE"
                              (balance_query (uuid4_drawn s) s)), s')).
  { rewrite (get_account_details_returns s' (uuid4_drawn s)
               (mkAccount (uuid4_drawn s) (ac_user_id a) (ac_account_type a)
                  (ac_currency a) "ACTIVE")).
    - reflexivity.
    - unfold query_Account_first. subst s'. cbn [accounts].
      apply find_snoc; [ exact Hfresh | apply Nat.eqb_refl ]. }
  split; [ | split; [ | split ] ].
  - destruct s as [accs txs es n]. reflexivity.
  - unfold has_account. cbn [ar_id r].
    destruct (existsb _ (accounts s)) eqn:E; [ | reflexivity ].
    apply existsb_exists in E. destruct E as [y [Hy Hyn]].
    rewrite (Hfresh y Hy) in Hyn. discriminate.
  - exact Hget.
  - intros Hfk. cbn [ar_id r]. rewrite Hget. unfold r. do 3 f_equal.
    rewrite balance_query_total. unfold entries_on.
    rewrite (filter_nil_iff _ (ledger_entries s)); [ reflexivity | ].
    intros e He. apply Nat.eqb_neq. intros E.
    pose proof (intact_entry_account D s I Hfk e He) as Hacc.
    unfold has_account in Hacc. apply existsb_exists in Hacc.
    destruct Hacc as [y [Hy Hye]]. apply Nat.eqb_eq in Hye.
    pose proof (intact_account_key D s I y Hy). lia.
Qed.

Lemma created_account_is_found_witness :
  let a := mkAccountCreate "user_003" "checking" "EUR" in
  let r := mkAccountResponse (uuid4_drawn funded) (ac_user_id a) (ac_account_type a)
             (ac_currency a) "ACTIVE" 0 in
  let s' := mkStore
              (accounts funded ++ [mkAccount (uuid4_drawn funded) (ac_user_id a)
                                     (ac_account_type a) (ac_currency a) "ACTIVE"])
              (transactions funded) (ledger_entries funded) (S (uuid4_drawn funded)) in
  call (create_new_account a) funded = (Return r, s') /\
  has_account funded (ar_id r) = false /\
  call (get_account_details (ar_id r)) s'
  = (Return (mkAccountResponse (uuid4_drawn funded) (ac_user_id a) (ac_account_type a)
               (ac_currency a) "ACTIVE" (balance_query (uuid4_drawn funded) funded)), s') /\
  (db_foreign_keys checked_db <> None ->
   call (get_account_details (ar_id r)) s' = (Return r, s')).
Proof.
  apply (created_account_is_found checked_db funded
           (mkAccountCreate "user_003" "checking" "EUR")).
  exact reachable_funded.
Defined.


